(** * Graph version and activation lifecycle of the platform router

    A shallow embedding of the graph endpoints of
    [autogpt_platform/backend/backend/server/routers/v1.py]:
    [do_create_graph], [update_graph] and [set_graph_active_version].

    The handlers are sequences of awaited calls on two collaborators, the
    graph store ([backend.data.graph]) and the lifecycle hooks
    ([backend.integrations.webhooks.graph_lifecycle_hooks]).  Both are
    threaded through a small state-and-exception monad whose state holds
    the persisted rows and a chronological log of every collaborator call.
    Every call is made on behalf of one user; the [user_id] argument that
    the handlers pass along is not represented. *)

From Stdlib Require Import ZArith String List Lia Bool DecimalString.
Import ListNotations.

Open Scope string_scope.
Open Scope Z_scope.
Open Scope list_scope.

(** ** Data model *)

(** The part of [graph_db.Graph] the handlers read or write.  Nodes and
    links are payload that no handler branches on. *)
Record Graph := mkGraph {
  id : string;
  version : Z;
  is_template : bool;
  is_active : bool
}.

Definition with_id (i : string) (g : Graph) : Graph :=
  mkGraph i (version g) (is_template g) (is_active g).
Definition with_version (v : Z) (g : Graph) : Graph :=
  mkGraph (id g) v (is_template g) (is_active g).
Definition with_is_template (b : bool) (g : Graph) : Graph :=
  mkGraph (id g) (version g) b (is_active g).
Definition with_is_active (b : bool) (g : Graph) : Graph :=
  mkGraph (id g) (version g) (is_template g) b.

(** [backend.server.model.CreateGraph]: every field is optional. *)
Record CreateGraph := mkCreateGraph {
  cg_graph : option Graph;
  template_id : option string;
  template_version : option Z
}.

(** Exceptions that can leave a handler.  [HTTPException] is raised by the
    handlers themselves; the others come out of the collaborators. *)
Inductive Exn :=
| HTTPException (status_code : Z) (detail : string)
| ActivationError (detail : string)
| DeactivationError (detail : string)
| ConflictError
| StopIteration.

Inductive Outcome (A : Type) :=
| Ok (a : A)
| Raise (e : Exn).
Arguments Ok {A} a.
Arguments Raise {A} e.

(** Collaborator calls, in the order they are awaited. *)
Inductive Event :=
| EvGetAllVersions (graph_id : string)
| EvGetGraph (graph_id : string) (v : option Z) (template : bool)
| EvCreateGraph (g : Graph)
| EvSetActiveVersion (graph_id : string) (v : Z)
| EvActivate (g : Graph)
| EvDeactivate (g : Graph).

Definition Store := list Graph.

Record World := mkWorld {
  store : Store;
  log : list Event
}.

(** The behaviour of the collaborators that the router cannot see: what the
    hooks answer, and whether the store's compare-and-swap detects a
    concurrent switch. *)
Record Env := mkEnv {
  activate_hook : Graph -> Outcome Graph;
  deactivate_hook : Graph -> Outcome unit;
  cas_conflict : Store -> string -> Z -> bool
}.

(** ** The handler monad *)

Definition M (A : Type) : Type := World -> Outcome A * World.

Definition ret {A} (a : A) : M A := fun w => (Ok a, w).

Definition bind {A B} (m : M A) (k : A -> M B) : M B :=
  fun w =>
    match m w with
    | (Ok a, w') => k a w'
    | (Raise e, w') => (Raise e, w')
    end.

Definition raise {A} (e : Exn) : M A := fun w => (Raise e, w).

Definition emit (ev : Event) : M unit :=
  fun w => (Ok tt, mkWorld (store w) (log w ++ [ev])).

Definition read_store : M Store := fun w => (Ok (store w), w).

Definition write_store (s : Store) : M unit :=
  fun w => (Ok tt, mkWorld s (log w)).

Definition lift {A} (o : Outcome A) : M A := fun w => (o, w).

Declare Scope handler_scope.
Delimit Scope handler_scope with handler.
Notation "x <- m ;; k" := (bind m (fun x => k))
  (at level 100, m at next level, right associativity) : handler_scope.
Notation "m ;; k" := (bind m (fun _ => k))
  (at level 100, right associativity) : handler_scope.
Open Scope handler_scope.

(** ** Python helpers *)

(** Truth value of a [str]. *)
Definition truthy (s : string) : bool := negb (s =? EmptyString)%string.

(** Truth value of a [str | None]. *)
Definition truthy_opt (s : option string) : bool :=
  match s with
  | Some s => truthy s
  | None => false
  end.

(** [str(n)] as an f-string prints it. *)
Definition str_of_int (z : Z) : string := NilZero.string_of_int (Z.to_int z).

(** [max(g.version for g in gs)] on a sequence whose head is [g]. *)
Definition max_version (g : Graph) (gs : list Graph) : Z :=
  fold_left Z.max (map version gs) (version g).

(** [next((v for v in gs if p(v)), None)]. *)
Definition next_or_none (p : Graph -> bool) (gs : list Graph) : option Graph :=
  find p gs.

(** ** The graph store, imported by the router as [graph_db] *)

Module graph_db.

Definition same_graph (graph_id : string) (g : Graph) : bool :=
  (id g =? graph_id)%string.

Definition versions_of (graph_id : string) (s : Store) : list Graph :=
  filter (same_graph graph_id) s.

(** Modelled from the spec: [graph_db.get_graph_all_versions] is not part of
    the sources; the spec gives [GraphStore.get_versions(graph_id)] as the
    ordered sequence of the versions of one graph. *)
Definition get_graph_all_versions (graph_id : string) : M (list Graph) :=
  emit (EvGetAllVersions graph_id) ;;
  s <- read_store ;;
  ret (versions_of graph_id s).

Definition lookup_graph (graph_id : string) (v : option Z) (template : bool)
    (s : Store) : option Graph :=
  match v with
  | Some n =>
      find (fun g => same_graph graph_id g && (version g =? n)
                     && (if template then is_template g else true)) s
  | None =>
      find (fun g => same_graph graph_id g
                     && (if template then is_template g else is_active g)) s
  end.

(** Modelled from the spec: [graph_db.get_graph] is not part of the sources.
    With a version it is the spec's get-by-version; without one it loads
    "the currently active version (may be none)"; with [template=True] it
    resolves a template. *)
Definition get_graph (graph_id : string) (v : option Z) (template : bool)
    : M (option Graph) :=
  emit (EvGetGraph graph_id v template) ;;
  s <- read_store ;;
  ret (lookup_graph graph_id v template s).

(** Modelled from the spec: [graph_db.create_graph] is not part of the
    sources; the spec's [GraphStore.create(graph)] persists the document it
    is given and returns it. *)
Definition create_graph (g : Graph) : M Graph :=
  emit (EvCreateGraph g) ;;
  s <- read_store ;;
  write_store (s ++ [g]) ;;
  ret g.

Definition mark_active (graph_id : string) (v : Z) (g : Graph) : Graph :=
  if same_graph graph_id g then with_is_active (version g =? v) g else g.

(** Modelled from the spec: [graph_db.set_graph_active_version] is not part
    of the sources.  The spec's [GraphStore.set_active(graph_id, version)]
    is a compare-and-swap that either fails with [ConflictError] and
    changes nothing, or makes [version] the only active version of
    [graph_id]. *)
Definition set_graph_active_version (env : Env) (graph_id : string) (v : Z)
    : M unit :=
  emit (EvSetActiveVersion graph_id v) ;;
  s <- read_store ;;
  if cas_conflict env s graph_id v then raise ConflictError
  else write_store (map (mark_active graph_id v) s).

(** Modelled from the spec: [graph_db.make_graph_model] is not part of the
    sources; it wraps a submitted document for persistence and keeps the
    fields tracked here. *)
Definition make_graph_model (g : Graph) : Graph := g.

End graph_db.

(** Modelled from the spec: [Graph.reassign_ids] is not part of the sources.
    Node and link identifiers are payload; with [reassign_graph_id=True] the
    graph itself receives the freshly drawn identifier [uuid]. *)
Definition reassign_ids (reassign_graph_id : bool) (uuid : string) (g : Graph)
    : Graph :=
  if reassign_graph_id then with_id uuid g else g.

(** ** The lifecycle hooks *)

Definition on_graph_activate (env : Env) (g : Graph) : M Graph :=
  emit (EvActivate g) ;;
  lift (activate_hook env g).

Definition on_graph_deactivate (env : Env) (g : Graph) : M unit :=
  emit (EvDeactivate g) ;;
  lift (deactivate_hook env g).

(** ** The handlers *)

(** [do_create_graph], lines 189-225.  [uuid] is the identifier that
    [reassign_ids(reassign_graph_id=True)] draws. *)
Definition do_create_graph (env : Env) (uuid : string)
    (create_graph_req : CreateGraph) (is_template_arg : bool) : M Graph :=
  graph <-
    match cg_graph create_graph_req with
    | Some g => ret (graph_db.make_graph_model g)
    | None =>
        if truthy_opt (template_id create_graph_req) then
          let tid := match template_id create_graph_req with
                     | Some t => t
                     | None => EmptyString
                     end in
          found <- graph_db.get_graph tid (template_version create_graph_req)
                     true ;;
          match found with
          | None =>
              raise (HTTPException 400 ("Template #" ++ tid ++ " not found"))
          | Some g => ret (with_version 1 g)
          end
        else
          raise (HTTPException 400
                   "Either graph or template_id must be provided.")
    end ;;
  let graph := with_is_template is_template_arg graph in
  let graph := with_is_active (negb is_template_arg) graph in
  let graph := reassign_ids true uuid graph in
  graph <- graph_db.create_graph graph ;;
  graph <- on_graph_activate env graph ;;
  ret graph.

(** [update_graph], lines 245-296. *)
Definition update_graph (env : Env) (graph_id : string) (graph : Graph)
    : M Graph :=
  if truthy (id graph) && negb (id graph =? graph_id)%string then
    raise (HTTPException 400 "Graph ID does not match ID in URI")
  else
    existing_versions <- graph_db.get_graph_all_versions graph_id ;;
    match existing_versions with
    | [] => raise (HTTPException 404 ("Graph #" ++ graph_id ++ " not found"))
    | g0 :: rest =>
        let latest_version_number := max_version g0 rest in
        let graph := with_version (latest_version_number + 1) graph in
        match find (fun v => version v =? latest_version_number)
                   existing_versions with
        | None => raise StopIteration
        | Some latest_version_graph =>
            let current_active_version :=
              next_or_none is_active existing_versions in
            if negb (Bool.eqb (is_template latest_version_graph)
                              (is_template graph)) then
              raise (HTTPException 400
                       "Changing is_template on an existing graph is forbidden")
            else
              let graph := with_is_active (negb (is_template graph)) graph in
              let graph := graph_db.make_graph_model graph in
              let graph := reassign_ids false EmptyString graph in
              new_graph_version <- graph_db.create_graph graph ;;
              if is_active new_graph_version then
                new_graph_version <- on_graph_activate env new_graph_version ;;
                graph_db.set_graph_active_version env graph_id
                  (version new_graph_version) ;;
                match current_active_version with
                | Some current =>
                    on_graph_deactivate env current ;;
                    ret new_graph_version
                | None => ret new_graph_version
                end
              else ret new_graph_version
        end
    end.

(** [set_graph_active_version], lines 304-337.  [new_active_version] is
    [request_body.active_graph_version]. *)
Definition set_graph_active_version (env : Env) (graph_id : string)
    (new_active_version : Z) : M unit :=
  new_active_graph <-
    graph_db.get_graph graph_id (Some new_active_version) false ;;
  match new_active_graph with
  | None =>
      raise (HTTPException 404
               ("Graph #" ++ graph_id ++ " v" ++ str_of_int new_active_version
                ++ " not found"))
  | Some new_active_graph =>
      current_active_graph <- graph_db.get_graph graph_id None false ;;
      on_graph_activate env new_active_graph ;;
      graph_db.set_graph_active_version env graph_id new_active_version ;;
      match current_active_graph with
      | Some current =>
          if negb (version current =? new_active_version) then
            on_graph_deactivate env current
          else ret tt
      | None => ret tt
      end
  end.

(** ** Observations on a run *)

(** The collaborator calls a handler added to the log. *)
Definition new_events (w w' : World) : list Event :=
  skipn (length (log w)) (log w').

Definition is_hook_event (ev : Event) : bool :=
  match ev with
  | EvActivate _ | EvDeactivate _ => true
  | _ => false
  end.

Definition is_store_write (ev : Event) : bool :=
  match ev with
  | EvCreateGraph _ | EvSetActiveVersion _ _ => true
  | _ => false
  end.

Definition is_deactivation (ev : Event) : bool :=
  match ev with
  | EvDeactivate _ => true
  | _ => false
  end.

Definition hook_events (evs : list Event) : list Event :=
  filter is_hook_event evs.

(** The rows a run handed to [graph_db.create_graph]. *)
Fixpoint persisted (evs : list Event) : list Graph :=
  match evs with
  | [] => []
  | EvCreateGraph g :: evs' => g :: persisted evs'
  | _ :: evs' => persisted evs'
  end.

(** The latest existing version as [update_graph] determines it. *)
Definition latest_version_graph (existing : list Graph) : option Graph :=
  match existing with
  | [] => None
  | g0 :: rest => find (fun v => version v =? max_version g0 rest) existing
  end.

(** The version number [update_graph] allocates. *)
Definition next_version (existing : list Graph) : option Z :=
  match existing with
  | [] => None
  | g0 :: rest => Some (max_version g0 rest + 1)
  end.

(** The sanity check at the head of [update_graph]. *)
Definition id_mismatch (graph_id : string) (graph : Graph) : bool :=
  truthy (id graph) && negb (id graph =? graph_id)%string.

(** Modelled from the spec: the error taxonomy is owned by the boundary
    layer, which is not part of the sources; the spec maps NotFoundError to
    status 404 and ValidationError to status 400. *)
Definition is_not_found_error (e : Exn) : bool :=
  match e with
  | HTTPException 404 _ => true
  | _ => false
  end.

Definition is_validation_error (e : Exn) : bool :=
  match e with
  | HTTPException 400 _ => true
  | _ => false
  end.

Definition graph_eqb (a b : Graph) : bool :=
  (id a =? id b)%string && (version a =? version b)
  && Bool.eqb (is_template a) (is_template b)
  && Bool.eqb (is_active a) (is_active b).

(** How often the deactivation hook was called on [g]. *)
Definition deactivations_of (g : Graph) (evs : list Event) : nat :=
  length (filter (fun ev => match ev with
                            | EvDeactivate g' => graph_eqb g g'
                            | _ => false
                            end) evs).

(** ** Activation state of one graph *)

Definition active_versions (graph_id : string) (s : Store) : list Graph :=
  filter is_active (graph_db.versions_of graph_id s).

Definition at_most_one_active (graph_id : string) (s : Store) : Prop :=
  (length (active_versions graph_id s) <= 1)%nat.

(** Rows are keyed by (graph_id, version). *)
Definition versions_distinct (graph_id : string) (s : Store) : Prop :=
  NoDup (map version (graph_db.versions_of graph_id s)).

(** ** Sequences of operations *)

Inductive Op :=
| OpCreate (uuid : string) (req : CreateGraph) (is_template_arg : bool)
| OpUpdate (graph_id : string) (graph : Graph)
| OpSetActiveVersion (graph_id : string) (v : Z).

Definition run_op (env : Env) (op : Op) : M unit :=
  match op with
  | OpCreate uuid req t => do_create_graph env uuid req t ;; ret tt
  | OpUpdate graph_id graph => update_graph env graph_id graph ;; ret tt
  | OpSetActiveVersion graph_id v => set_graph_active_version env graph_id v
  end.

(** The graph an operation works on; a creation works on the graph whose
    identifier it draws. *)
Definition op_graph_id (op : Op) : string :=
  match op with
  | OpCreate uuid _ _ => uuid
  | OpUpdate graph_id _ => graph_id
  | OpSetActiveVersion graph_id _ => graph_id
  end.

(** The identifier a creation draws is one no stored graph carries. *)
Definition draws_unused_id (op : Op) (s : Store) : bool :=
  match op with
  | OpCreate uuid _ _ =>
      match graph_db.versions_of uuid s with
      | [] => true
      | _ :: _ => false
      end
  | _ => true
  end.

(** Runs the operations one after the other; [Some] of the final world when
    every one of them completed without raising and every creation drew an
    identifier that was unused at that point (as a fresh uuid is). *)
Fixpoint run_ops (env : Env) (ops : list Op) (w : World) : option World :=
  match ops with
  | [] => Some w
  | op :: ops' =>
      if draws_unused_id op (store w) then
        match run_op env op w with
        | (Ok _, w') => run_ops env ops' w'
        | (Raise _, _) => None
        end
      else None
  end.

(** ** Switches of the active version *)

Inductive SwitchCall :=
| ViaUpdate (graph : Graph)
| ViaSetActiveVersion (new_active_version : Z).

Definition run_switch (env : Env) (graph_id : string) (c : SwitchCall)
    : M unit :=
  match c with
  | ViaUpdate graph => update_graph env graph_id graph ;; ret tt
  | ViaSetActiveVersion v => set_graph_active_version env graph_id v
  end.

(** The call switches [graph_id] from its active version [A] to a different
    version [B]: through [update_graph], [B] is the new version of a
    non-template document; through [set_graph_active_version], [B] is the
    requested version. *)
Definition switches_from_to (graph_id : string) (c : SwitchCall) (s : Store)
    (A B : Graph) : Prop :=
  match c with
  | ViaUpdate graph =>
      next_or_none is_active (graph_db.versions_of graph_id s) = Some A
      /\ next_version (graph_db.versions_of graph_id s) = Some (version B)
      /\ B = mkGraph (id graph) (version B) false true
      /\ is_template graph = false
  | ViaSetActiveVersion v =>
      graph_db.lookup_graph graph_id None false s = Some A
      /\ graph_db.lookup_graph graph_id (Some v) false s = Some B
      /\ version A <> v
  end.

(** Versions whose side effects are registered, as the hooks leave them:
    activation registers a version, deactivation tears it down. *)
Definition apply_hook (reg : list Z) (ev : Event) : list Z :=
  match ev with
  | EvActivate g => version g :: reg
  | EvDeactivate g => filter (fun v => negb (v =? version g)) reg
  | _ => reg
  end.

(** The registered versions after each event of a run. *)
Fixpoint registrations (reg : list Z) (evs : list Event) : list (list Z) :=
  match evs with
  | [] => []
  | ev :: evs' =>
      let reg' := apply_hook reg ev in
      reg' :: registrations reg' evs'
  end.

Definition never_unregistered (reg : list Z) (evs : list Event) : Prop :=
  Forall (fun r => r <> []) (registrations reg evs).

(** ** Fixtures *)

Definition env_ok : Env :=
  mkEnv (fun g => Ok g) (fun _ => Ok tt) (fun _ _ _ => false).

Definition env_activation_fails : Env :=
  mkEnv (fun _ => Raise (ActivationError "missing credentials"))
        (fun _ => Ok tt) (fun _ _ _ => false).

Definition env_conflict : Env :=
  mkEnv (fun g => Ok g) (fun _ => Ok tt) (fun _ _ _ => true).

Definition g1_v1 : Graph := mkGraph "g1" 1 false true.
Definition g1_v2 : Graph := mkGraph "g1" 2 false false.
Definition g1_v3 : Graph := mkGraph "g1" 3 false false.

(** Graph [g1] with versions 1 (active) and 2 (inactive). *)
Definition w_g1 : World := mkWorld [g1_v1; g1_v2] [].

Definition w_empty : World := mkWorld [] [].

(** Graph [g1] with versions 1, 2 (active) and 3. *)
Definition w_g123 : World :=
  mkWorld [mkGraph "g1" 1 false false; mkGraph "g1" 2 false true; g1_v3] [].

Definition draft : Graph := mkGraph EmptyString 1 false false.

(** Create [g1], update it, then switch back to version 1. *)
Definition demo_ops1 : list Op :=
  [OpCreate "g1" (mkCreateGraph (Some draft) None None) false;
   OpUpdate "g1" (mkGraph "g1" 0 false false)].

Definition demo_ops2 : list Op :=
  [OpSetActiveVersion "g1" 1].

Definition demo_final : World :=
  mkWorld
    [mkGraph "g1" 1 false true; mkGraph "g1" 2 false false]
    [EvCreateGraph (mkGraph "g1" 1 false true);
     EvActivate (mkGraph "g1" 1 false true);
     EvGetAllVersions "g1";
     EvCreateGraph (mkGraph "g1" 2 false true);
     EvActivate (mkGraph "g1" 2 false true);
     EvSetActiveVersion "g1" 2;
     EvDeactivate (mkGraph "g1" 1 false true);
     EvGetGraph "g1" (Some 1) false;
     EvGetGraph "g1" None false;
     EvActivate (mkGraph "g1" 1 false false);
     EvSetActiveVersion "g1" 1;
     EvDeactivate (mkGraph "g1" 2 false true)].

(** ** Switches that fail on the way *)

(** The call gets as far as the activation hook, and [B] is the version it
    hands to the hook: through [set_graph_active_version], the requested
    version resolves to [B]; through [update_graph], the document passes the
    checks, is not a template, and [B] is the new row. *)
Definition reaches_activation (graph_id : string) (c : SwitchCall)
    (s : Store) (B : Graph) : Prop :=
  match c with
  | ViaUpdate graph =>
      id_mismatch graph_id graph = false
      /\ next_version (graph_db.versions_of graph_id s) = Some (version B)
      /\ B = mkGraph (id graph) (version B) false true
      /\ is_template graph = false
      /\ (forall L,
            latest_version_graph (graph_db.versions_of graph_id s) = Some L ->
            is_template L = false)
  | ViaSetActiveVersion v =>
      graph_db.lookup_graph graph_id (Some v) false s = Some B
  end.


(** The store on which the call issues the store's set-active, and the
    version number it passes: [update_graph] has persisted [B] by then and
    passes the version of the graph [B'] the activation hook returned. *)
Definition store_at_switch (c : SwitchCall) (s : Store) (B : Graph) : Store :=
  match c with
  | ViaUpdate _ => s ++ [B]
  | ViaSetActiveVersion _ => s
  end.

Definition requested_version (c : SwitchCall) (B' : Graph) : Z :=
  match c with
  | ViaUpdate _ => version B'
  | ViaSetActiveVersion v => v
  end.

(** ** The other graph endpoints *)

(** [try: ... except Exception: ...]: every exception of [Exn] derives from
    [Exception]. *)
Definition try_except {A} (m : M A) (handler : Exn -> M A) : M A :=
  fun w =>
    match m w with
    | (Ok a, w') => (Ok a, w')
    | (Raise e, w') => handler e w'
    end.

(** [get_graph], lines 147-158.  [hide_credentials] only affects the
    payload. *)
Definition get_graph (graph_id : string) (v : option Z) : M Graph :=
  graph <- graph_db.get_graph graph_id v false ;;
  match graph with
  | None => raise (HTTPException 404 ("Graph #" ++ graph_id ++ " not found."))
  | Some g => ret g
  end.

(** [get_graph_all_versions], lines 171-177. *)
Definition get_graph_all_versions (graph_id : string) : M (list Graph) :=
  graphs <- graph_db.get_graph_all_versions graph_id ;;
  match graphs with
  | [] => raise (HTTPException 404 ("Graph #" ++ graph_id ++ " not found."))
  | _ :: _ => ret graphs
  end.

(** [create_new_graph], lines 183-186. *)
Definition create_new_graph (env : Env) (uuid : string)
    (create_graph_req : CreateGraph) : M Graph :=
  do_create_graph env uuid create_graph_req false.

(** [create_new_template], lines 484-487. *)
Definition create_new_template (env : Env) (uuid : string)
    (create_graph_req : CreateGraph) : M Graph :=
  do_create_graph env uuid create_graph_req true.

(** [get_graph_input_schema], lines 384-392.  [get_input_schema] is the
    method of [graph_db.Graph] that computes the schema; it is not part of
    the sources and may raise. *)
Definition get_graph_input_schema {Item : Type}
    (get_input_schema : Graph -> Outcome (list Item)) (graph_id : string)
    : M (list Item) :=
  try_except
    (graph <- graph_db.get_graph graph_id None false ;;
     match graph with
     | Some g => lift (get_input_schema g)
     | None => ret []
     end)
    (fun _ =>
       raise (HTTPException 404 ("Graph #" ++ graph_id ++ " not found."))).

(** What a stored row is apart from its activation flag. *)
Definition row_key (g : Graph) : string * Z * bool :=
  (id g, version g, is_template g).

(** ** Block execution *)

(** A block as [execute_graph_block] uses it: [execute] is a generator of
    (name, data) pairs, given here by what it yields and by the exception
    that ends it, if any. *)
Record Block (Data : Type) := mkBlock {
  block_execute : Data -> list (string * Data) * option Exn
}.
Arguments mkBlock {Data} _.
Arguments block_execute {Data} _ _.

(** [dict[str, list]] in insertion order. *)
Definition BlockOutput (Data : Type) : Type := list (string * list Data).

(** [output[name].append(data)] on a [defaultdict(list)]. *)
Fixpoint dict_append {Data : Type} (name : string) (data : Data)
    (output : BlockOutput Data) : BlockOutput Data :=
  match output with
  | [] => [(name, [data])]
  | (k, ds) :: rest =>
      if (k =? name)%string then (k, ds ++ [data]) :: rest
      else (k, ds) :: dict_append name data rest
  end.

(** [output.get(name)]. *)
Fixpoint dict_get {Data : Type} (name : string) (output : BlockOutput Data)
    : option (list Data) :=
  match output with
  | [] => None
  | (k, ds) :: rest =>
      if (k =? name)%string then Some ds else dict_get name rest
  end.

(** The loop at lines 102-104. *)
Definition collect_outputs {Data : Type} (yields : list (string * Data))
    : BlockOutput Data :=
  fold_left (fun output nd => dict_append (fst nd) (snd nd) output) yields [].

(** [execute_graph_block], lines 97-105.  [get_block] is the block
    registry, [backend.data.block.get_block]. *)
Definition execute_graph_block {Data : Type}
    (get_block : string -> option (Block Data)) (block_id : string)
    (data : Data) : Outcome (BlockOutput Data) :=
  match get_block block_id with
  | None => Raise (HTTPException 404 ("Block #" ++ block_id ++ " not found."))
  | Some obj =>
      let (yields, failure) := block_execute obj data in
      let output := collect_outputs yields in
      match failure with
      | Some e => Raise e
      | None => Ok output
      end
  end.

(** The data yielded under [name], in the order of the yields. *)
Definition yielded_under {Data : Type} (name : string)
    (yields : list (string * Data)) : list Data :=
  map snd (filter (fun nd => (fst nd =? name)%string) yields).

(** ** More fixtures *)

Definition env_deactivation_fails : Env :=
  mkEnv (fun g => Ok g)
        (fun _ => Raise (DeactivationError "webhook still registered"))
        (fun _ _ _ => false).

(** Graph [g1] with no active version. *)
Definition w_g1_idle : World :=
  mkWorld [mkGraph "g1" 1 false false; g1_v2] [].

(** A template [t1] in versions 1 and 2. *)
Definition w_t1 : World :=
  mkWorld [mkGraph "t1" 1 true false; mkGraph "t1" 2 true false] [].

Definition echo_block : Block Z :=
  mkBlock (fun n => ([("out", n); ("log", 0); ("out", n + 1)], None)).

Definition registry (block_id : string) : option (Block Z) :=
  if (block_id =? "echo")%string then Some echo_block else None.

(** The row a non-template update of [w_g1] persists. *)
Definition g1_v3_new : Graph := mkGraph "g1" 3 false true.

(** ** Reasoning support *)

Ltac run_handler :=
  cbv beta iota delta
    [bind ret raise emit read_store write_store lift
     graph_db.get_graph graph_db.get_graph_all_versions
     graph_db.create_graph graph_db.set_graph_active_version
     graph_db.make_graph_model reassign_ids
     on_graph_activate on_graph_deactivate store log].

Ltac run_handler_in H :=
  cbv beta iota delta
    [bind ret raise emit read_store write_store lift
     graph_db.get_graph graph_db.get_graph_all_versions
     graph_db.create_graph graph_db.set_graph_active_version
     graph_db.make_graph_model reassign_ids
     on_graph_activate on_graph_deactivate store log] in H.

Ltac graph_fields :=
  unfold with_id, with_version, with_is_template, with_is_active in *;
  cbn [id version is_template is_active] in *.

Ltac case_split H :=
  repeat (match type of H with
          | context [match ?x with _ => _ end] =>
              lazymatch x with
              | context [match ?y with _ => _ end] => fail
              | _ => destruct x eqn:?
              end
          end; run_handler_in H; graph_fields).

Lemma new_events_app (s s' : Store) (l evs : list Event) :
  new_events (mkWorld s l) (mkWorld s' (l ++ evs)) = evs.
Proof.
  unfold new_events; cbn [log].
  induction l as [|e l IH]; [reflexivity | exact IH].
Qed.

Lemma new_events_none (s s' : Store) (l : list Event) :
  new_events (mkWorld s l) (mkWorld s' l) = [].
Proof.
  rewrite <- (app_nil_r l) at 2. apply new_events_app.
Qed.

Ltac tidy_log :=
  repeat rewrite <- app_assoc; cbn [app];
  try rewrite new_events_app; try rewrite new_events_none.

Lemma max_version_in (l : list Z) (a : Z) :
  fold_left Z.max l a = a \/ In (fold_left Z.max l a) l.
Proof.
  revert a; induction l as [|x l IH]; intros a; cbn [fold_left].
  - now left.
  - destruct (IH (Z.max a x)) as [H | H].
    + rewrite H. destruct (Z.max_spec a x) as [[_ E] | [_ E]]; rewrite E.
      * right; now left.
      * now left.
    + right; now right.
Qed.

Lemma max_version_upper (l : list Z) (a : Z) :
  a <= fold_left Z.max l a /\ forall x, In x l -> x <= fold_left Z.max l a.
Proof.
  revert a; induction l as [|y l IH]; intros a; cbn [fold_left].
  - split; [lia | intros x []].
  - destruct (IH (Z.max a y)) as [H1 H2]. split; [lia |].
    intros x [-> | Hx]; [lia | now apply H2].
Qed.

Lemma find_succeeds {A} (p : A -> bool) (l : list A) (x : A) :
  In x l -> p x = true -> exists y, find p l = Some y.
Proof.
  induction l as [|a l IH]; intros Hin Hp; [destruct Hin |].
  cbn [find]. destruct (p a) eqn:E; [now exists a |].
  destruct Hin as [-> | Hin]; [congruence | now apply IH].
Qed.

(** The generator expression at lines 261-263 always yields a version: the
    maximum is the version number of one of the existing versions. *)
Lemma latest_version_graph_found (g0 : Graph) (rest : list Graph) :
  exists L, latest_version_graph (g0 :: rest) = Some L
            /\ version L = max_version g0 rest
            /\ In L (g0 :: rest).
Proof.
  unfold latest_version_graph.
  assert (exists x, In x (g0 :: rest) /\ version x = max_version g0 rest)
    as [x [Hin Hx]].
  { unfold max_version.
    destruct (max_version_in (map version rest) (version g0)) as [H | H].
    - exists g0; split; [now left | now rewrite H].
    - apply in_map_iff in H as [x [Hx Hin]].
      exists x; split; [now right | easy]. }
  destruct (find_succeeds (fun v => version v =? max_version g0 rest)
              (g0 :: rest) x Hin) as [L HL]; [now apply Z.eqb_eq |].
  exists L; split; [exact HL |].
  apply find_some in HL as [Hin' Hv]. split; [now apply Z.eqb_eq | exact Hin'].
Qed.

(** ** [update_graph] *)

Section UpdateGraph.

Variable env : Env.
Variable graph_id : string.
Variable graph : Graph.

(** C10: a submitted document whose id is non-empty and differs from the
    graph_id of the request path is rejected with status 400, and the world
    is untouched: no call reaches the store (nor the hooks). *)
Theorem update_graph_rejects_foreign_id (w : World) :
  id graph <> EmptyString ->
  id graph <> graph_id ->
  update_graph env graph_id graph w
  = (Raise (HTTPException 400 "Graph ID does not match ID in URI"), w).
Proof.
  intros Hne Hdiff. unfold update_graph, truthy.
  apply String.eqb_neq in Hne, Hdiff. now rewrite Hne, Hdiff.
Qed.

(** C7: when the submitted [is_template] differs from that of the latest
    existing version, [update_graph] raises a 400 (the boundary's
    ValidationError), the store is left as it was, and neither a store
    write nor a hook call was issued. *)
Theorem update_graph_template_immutable (w : World) (L : Graph) :
  latest_version_graph (graph_db.versions_of graph_id (store w)) = Some L ->
  is_template L <> is_template graph ->
  exists detail w',
    update_graph env graph_id graph w
    = (Raise (HTTPException 400 detail), w')
    /\ store w' = store w
    /\ forallb (fun ev => negb (is_store_write ev) && negb (is_hook_event ev))
         (new_events w w') = true.
Proof.
  intros HL Hneq. destruct w as [s l]. cbn [store] in HL.
  unfold update_graph.
  destruct (truthy (id graph) && negb (id graph =? graph_id)%string).
  - do 2 eexists. split; [reflexivity |]. split; [reflexivity |].
    now rewrite new_events_none.
  - run_handler.
    destruct (graph_db.versions_of graph_id s) as [|g0 rest]; [discriminate |].
    unfold latest_version_graph in HL. rewrite HL.
    cbn [is_template with_version].
    destruct (Bool.eqb (is_template L) (is_template graph)) eqn:E.
    + apply Bool.eqb_prop in E. contradiction.
    + cbn [negb]. do 2 eexists. split; [reflexivity |].
      split; [reflexivity |]. now tidy_log.
Qed.

End UpdateGraph.

Section UpdateGraphVersion.

Variable env : Env.
Variable graph_id : string.
Variable graph : Graph.

(** C8 (as amended): once the sanity check on the document id has passed,
    [update_graph] on a graph without versions raises 404 after the one
    store read; on a graph with versions, every row the call persists
    carries the maximum existing version number plus one, and a successful
    call persists exactly one such row.  The [is_active] flags of the
    existing versions play no part in the number. *)
Theorem update_graph_allocates_next_version (w : World) :
  id_mismatch graph_id graph = false ->
  match next_version (graph_db.versions_of graph_id (store w)) with
  | None =>
      update_graph env graph_id graph w
      = (Raise (HTTPException 404 ("Graph #" ++ graph_id ++ " not found")),
         mkWorld (store w) (log w ++ [EvGetAllVersions graph_id]))
  | Some n =>
      forall r w',
        update_graph env graph_id graph w = (r, w') ->
        (forall g, In g (persisted (new_events w w')) -> version g = n)
        /\ (forall g', r = Ok g' ->
            persisted (new_events w w')
            = [mkGraph (id graph) n (is_template graph)
                 (negb (is_template graph))])
  end.
Proof.
  intros Hid. destruct w as [s l]. cbn [store log].
  unfold update_graph. unfold id_mismatch in Hid. rewrite Hid.
  run_handler.
  destruct (graph_db.versions_of graph_id s) as [|g0 rest];
    cbn [next_version]; [reflexivity |].
  intros r w' H. graph_fields.
  case_split H; graph_fields;
    injection H as <- <-; tidy_log; cbn [persisted];
    (split; [intros ? Hg; repeat destruct Hg as [<- | Hg]; try easy
            | intros ? Hr; try discriminate; try reflexivity]).
Qed.

End UpdateGraphVersion.

(** ** [set_graph_active_version] *)

Section SetActiveVersion.

Variable env : Env.
Variable graph_id : string.
Variable v : Z.

(** The active version is itself a row with its version number, so asking
    for that number resolves. *)
Lemma active_version_resolves (s : Store) (A : Graph) :
  graph_db.lookup_graph graph_id None false s = Some A ->
  exists B, graph_db.lookup_graph graph_id (Some (version A)) false s = Some B.
Proof.
  unfold graph_db.lookup_graph. intros H.
  apply find_some in H as [Hin Hp].
  apply andb_prop in Hp as [Hid _].
  apply (find_succeeds _ s A Hin).
  now rewrite Hid, Z.eqb_refl.
Qed.

(** When the activation hook fails for the requested version [B] while
    [A] is active, [set_graph_active_version] aborts with the hook's error;
    the store is unchanged, the active version read back is still [A], and
    the only collaborator calls were the two reads and the activation hook:
    the store's set-active and the deactivation hook were not called. *)
Theorem set_active_version_activation_failure (w : World) (A B : Graph)
    (e : Exn) :
  graph_db.lookup_graph graph_id None false (store w) = Some A ->
  graph_db.lookup_graph graph_id (Some v) false (store w) = Some B ->
  activate_hook env B = Raise e ->
  exists w',
    set_graph_active_version env graph_id v w = (Raise e, w')
    /\ store w' = store w
    /\ graph_db.lookup_graph graph_id None false (store w') = Some A
    /\ new_events w w' = [EvGetGraph graph_id (Some v) false;
          EvGetGraph graph_id None false; EvActivate B]
    /\ deactivations_of A (new_events w w') = 0%nat.
Proof.
  intros HA HB He. destruct w as [s l]. cbn [store] in *.
  unfold set_graph_active_version. run_handler.
  rewrite HB, HA, He. eexists. split; [reflexivity |].
  cbn [store]. tidy_log. now repeat split.
Qed.

(** When the activation hook succeeded and the store's
    compare-and-swap then fails, [set_graph_active_version] surfaces
    [ConflictError] at once: the store is unchanged and no deactivation
    hook is called, neither on the new version nor on any other. *)
Theorem set_active_version_conflict_propagates (w : World) (B B' : Graph) :
  graph_db.lookup_graph graph_id (Some v) false (store w) = Some B ->
  activate_hook env B = Ok B' ->
  cas_conflict env (store w) graph_id v = true ->
  exists w',
    set_graph_active_version env graph_id v w = (Raise ConflictError, w')
    /\ store w' = store w
    /\ new_events w w'
       = [EvGetGraph graph_id (Some v) false;
          EvGetGraph graph_id None false; EvActivate B;
          EvSetActiveVersion graph_id v]
    /\ filter is_deactivation (new_events w w') = [].
Proof.
  intros HB Hact Hcas. destruct w as [s l]. cbn [store] in *.
  unfold set_graph_active_version. run_handler.
  rewrite HB, Hact, Hcas. eexists. split; [reflexivity |].
  cbn [store]. tidy_log. now repeat split.
Qed.

(** C5 (as amended): asking for the version that is already active is not
    a no-op.  The activation hook is called on that version, then the
    store's set-active is issued; the deactivation hook is not called.  The
    call returns successfully exactly when the hook and the store succeed,
    and the errors of either are surfaced. *)
Theorem set_active_version_on_active_version (w : World) (A : Graph) :
  graph_db.lookup_graph graph_id None false (store w) = Some A ->
  version A = v ->
  exists B,
    graph_db.lookup_graph graph_id (Some v) false (store w) = Some B
    /\ set_graph_active_version env graph_id v w
       = match activate_hook env B with
         | Raise e =>
             (Raise e,
              mkWorld (store w)
                (log w ++ [EvGetGraph graph_id (Some v) false;
          EvGetGraph graph_id None false; EvActivate B]))
         | Ok _ =>
             if cas_conflict env (store w) graph_id v then
               (Raise ConflictError,
                mkWorld (store w)
                  (log w ++ [EvGetGraph graph_id (Some v) false;
          EvGetGraph graph_id None false; EvActivate B;
                             EvSetActiveVersion graph_id v]))
             else
               (Ok tt,
                mkWorld (map (graph_db.mark_active graph_id v) (store w))
                  (log w ++ [EvGetGraph graph_id (Some v) false;
          EvGetGraph graph_id None false; EvActivate B;
                             EvSetActiveVersion graph_id v]))
         end.
Proof.
  intros HA Hv. destruct (active_version_resolves _ _ HA) as [B HB].
  rewrite Hv in HB. exists B. split; [exact HB |].
  destruct w as [s l]. cbn [store log] in *.
  unfold set_graph_active_version. run_handler.
  rewrite HB, HA.
  destruct (activate_hook env B); [| now tidy_log].
  destruct (cas_conflict env s graph_id v); [now tidy_log |].
  rewrite Hv, Z.eqb_refl. cbn [negb]. now tidy_log.
Qed.

End SetActiveVersion.

(** ** [do_create_graph] *)

Section CreateGraph.

Variable env : Env.
Variable uuid : string.
Variable req : CreateGraph.
Variable is_template_arg : bool.

(** Whatever [do_create_graph] persists is a row of the drawn identifier
    whose [is_template] is the argument and whose [is_active] is its
    negation. *)
Lemma do_create_graph_persists_policy (w w' : World) (r : Outcome Graph) :
  do_create_graph env uuid req is_template_arg w = (r, w') ->
  forall g, In g (persisted (new_events w w')) ->
    id g = uuid /\ is_template g = is_template_arg
    /\ is_active g = negb is_template_arg.
Proof.
  intros H. destruct w as [s l]. unfold do_create_graph in H.
  run_handler_in H. case_split H; injection H as <- <-; tidy_log;
    cbn [persisted]; intros ? Hg; repeat destruct Hg as [<- | Hg];
    try easy.
Qed.

(** The activation hook is called on every row [do_create_graph] persists,
    whether or not that row is active. *)
Lemma do_create_graph_always_activates (w w' : World) (r : Outcome Graph) :
  do_create_graph env uuid req is_template_arg w = (r, w') ->
  hook_events (new_events w w')
  = map EvActivate (persisted (new_events w w')).
Proof.
  intros H. destruct w as [s l]. unfold do_create_graph in H.
  run_handler_in H. case_split H; injection H as <- <-; tidy_log;
    reflexivity.
Qed.

(** C9 (as amended): without an inline definition, [do_create_graph] raises
    status 400 both when no template_id is supplied and when the supplied
    template_id does not resolve to a template; the second case differs
    only in its detail and in the one store read that precedes it.  Nothing
    is written and no hook is called. *)
Theorem do_create_graph_rejects_with_400 (w : World) :
  cg_graph req = None ->
  (truthy_opt (template_id req) = false ->
   do_create_graph env uuid req is_template_arg w
   = (Raise (HTTPException 400
               "Either graph or template_id must be provided."), w))
  /\ (forall tid,
        template_id req = Some tid ->
        tid <> EmptyString ->
        graph_db.lookup_graph tid (template_version req) true (store w)
        = None ->
        do_create_graph env uuid req is_template_arg w
        = (Raise (HTTPException 400 ("Template #" ++ tid ++ " not found")),
           mkWorld (store w)
             (log w ++ [EvGetGraph tid (template_version req) true]))).
Proof.
  intros Hg. destruct w as [s l]. cbn [store log].
  unfold do_create_graph. rewrite Hg. split.
  - intros Ht. rewrite Ht. reflexivity.
  - intros tid Htid Hne Hmiss. rewrite Htid. cbn [truthy_opt]. unfold truthy.
    apply String.eqb_neq in Hne. rewrite Hne. cbn [negb].
    run_handler. rewrite Hmiss. reflexivity.
Qed.

End CreateGraph.

(** C6, first half: the row that a creation persists has
    [is_active = not is_template]; second half, evaluated on the creation
    of a template from an inline definition: the row is persisted inactive
    and the activation hook is nevertheless called on it. *)
Theorem create_template_invokes_activation_hook :
  let template := mkGraph "t1" 1 true false in
  do_create_graph env_ok "t1"
    (mkCreateGraph (Some (mkGraph "draft" 1 false false)) None None)
    true w_empty
  = (Ok template,
     mkWorld [template] [EvCreateGraph template; EvActivate template]).
Proof. reflexivity. Qed.

(** ** Hand-over between versions *)

Lemma active_version_below_next (existing : list Graph) (A : Graph) (n : Z) :
  next_or_none is_active existing = Some A ->
  next_version existing = Some n ->
  version A < n.
Proof.
  destruct existing as [|g0 rest]; [discriminate |].
  unfold next_or_none, next_version, max_version. intros HA Hn.
  injection Hn as <-. apply find_some in HA as [Hin _].
  destruct (max_version_upper (map version rest) (version g0)) as [H0 Hrest].
  destruct Hin as [<- | Hin]; [lia |].
  specialize (Hrest (version A) (in_map version _ _ Hin)). lia.
Qed.

Lemma handover_never_unregistered (a b : Z) :
  a <> b ->
  filter (fun x => negb (x =? a)) [b; a] <> [].
Proof.
  intros Hab. cbn [filter].
  assert ((b =? a) = false) as -> by (apply Z.eqb_neq; congruence).
  cbn [negb]. discriminate.
Qed.

(** C2: in a successful switch from the active version [A] to a different
    version [B], through [update_graph] or [set_graph_active_version], the
    hooks called are exactly the activation of [B] followed by the
    deactivation of [A]; every handler step being awaited, the first has
    completed when the second begins.  Counting [A] as registered at the
    start, the set of registered versions is non-empty after every step. *)
Theorem switch_activates_before_deactivating (env : Env) (graph_id : string)
    (c : SwitchCall) (w w' : World) (A B : Graph) :
  switches_from_to graph_id c (store w) A B ->
  run_switch env graph_id c w = (Ok tt, w') ->
  hook_events (new_events w w') = [EvActivate B; EvDeactivate A]
  /\ never_unregistered [version A] (new_events w w').
Proof.
  destruct w as [s l]. cbn [store]. destruct c as [graph | v];
    cbn [switches_from_to run_switch].
  - intros (HA & Hn & HB & Ht) H.
    pose proof (active_version_below_next _ _ _ HA Hn) as Hlt.
    unfold update_graph in H.
    destruct (truthy (id graph) && negb (id graph =? graph_id)%string);
      [discriminate |].
    run_handler_in H.
    destruct (graph_db.versions_of graph_id s) as [|g0 rest];
      [discriminate |].
    cbn [next_version] in Hn. injection Hn as Hn.
    graph_fields. rewrite HA, Ht in H. cbn [negb] in H.
    case_split H; try discriminate. injection H as <-. tidy_log.
    graph_fields. rewrite ?Ht, Hn, <- HB.
    split; [reflexivity |].
    unfold never_unregistered. cbn [registrations apply_hook].
    repeat constructor; try discriminate.
    apply handover_never_unregistered. lia.
  - intros (HA & HB & Hv) H.
    unfold set_graph_active_version in H. run_handler_in H.
    rewrite HB, HA in H.
    assert ((version A =? v) = false) as Hneq by now apply Z.eqb_neq.
    rewrite Hneq in H. cbn [negb] in H.
    case_split H; try discriminate.
    injection H as _ <-. tidy_log.
    split; [reflexivity |].
    unfold never_unregistered. cbn [registrations apply_hook].
    repeat constructor; try discriminate.
    apply handover_never_unregistered.
    apply find_some in HB as [_ HB].
    apply andb_prop in HB as [HB _]. apply andb_prop in HB as [_ HB].
    apply Z.eqb_eq in HB. congruence.
Qed.


(** ** At most one active version *)

Section OneActiveVersion.

Variable graph_id : string.

Lemma versions_of_app (s : Store) (g : Graph) :
  graph_db.versions_of graph_id (s ++ [g])
  = graph_db.versions_of graph_id s
    ++ (if graph_db.same_graph graph_id g then [g] else []).
Proof.
  unfold graph_db.versions_of. rewrite filter_app. reflexivity.
Qed.

Lemma versions_of_mark_active (v : Z) (s : Store) :
  graph_db.versions_of graph_id (map (graph_db.mark_active graph_id v) s)
  = map (fun g => with_is_active (version g =? v) g)
        (graph_db.versions_of graph_id s).
Proof.
  unfold graph_db.versions_of, graph_db.mark_active.
  induction s as [|g s IH]; [reflexivity |].
  cbn [map filter]. destruct (graph_db.same_graph graph_id g) eqn:E.
  - unfold graph_db.same_graph in *. cbn [with_is_active id].
    rewrite E. cbn [map]. now rewrite IH.
  - rewrite E. exact IH.
Qed.

Lemma mark_active_keeps_versions (v : Z) (l : list Graph) :
  map version (map (fun g => with_is_active (version g =? v) g) l)
  = map version l.
Proof.
  rewrite map_map. apply map_ext. reflexivity.
Qed.

Lemma none_active_without_version (v : Z) (l : list Graph) :
  ~ In v (map version l) ->
  filter is_active (map (fun g => with_is_active (version g =? v) g) l) = [].
Proof.
  induction l as [|g l IH]; intros Hnot; [reflexivity |].
  cbn [map filter with_is_active is_active].
  destruct (version g =? v) eqn:E.
  - apply Z.eqb_eq in E. exfalso. apply Hnot. now left.
  - apply IH. intros Hin. apply Hnot. now right.
Qed.

Lemma one_active_after_marking (v : Z) (l : list Graph) :
  NoDup (map version l) ->
  (length (filter is_active
             (map (fun g => with_is_active (version g =? v)%Z g) l)) <= 1)%nat.
Proof.
  induction l as [|g l IH]; intros Hnd; [cbn; lia |].
  cbn [map] in Hnd. apply NoDup_cons_iff in Hnd as [Hnot Hnd].
  cbn [map filter with_is_active is_active].
  destruct (version g =? v) eqn:E.
  - apply Z.eqb_eq in E. subst v.
    rewrite (none_active_without_version _ _ Hnot). cbn; lia.
  - now apply IH.
Qed.

(** What the store's set-active establishes for the graph it is called on. *)
Lemma set_active_establishes (v : Z) (s : Store) :
  versions_distinct graph_id s ->
  versions_distinct graph_id (map (graph_db.mark_active graph_id v) s)
  /\ at_most_one_active graph_id (map (graph_db.mark_active graph_id v) s).
Proof.
  unfold versions_distinct, at_most_one_active, active_versions.
  intros Hnd. rewrite versions_of_mark_active. split.
  - now rewrite mark_active_keeps_versions.
  - now apply one_active_after_marking.
Qed.

(** Persisting the next version keeps the version numbers distinct. *)
Lemma next_version_is_unused (g0 : Graph) (rest : list Graph) :
  ~ In (max_version g0 rest + 1) (map version (g0 :: rest)).
Proof.
  unfold max_version.
  destruct (max_version_upper (map version rest) (version g0)) as [H0 Hrest].
  cbn [map]. intros [H | H]; [lia |].
  specialize (Hrest _ H). lia.
Qed.

Lemma versions_distinct_app (s : Store) (g : Graph) :
  versions_distinct graph_id s ->
  (graph_db.same_graph graph_id g = true ->
   ~ In (version g) (map version (graph_db.versions_of graph_id s))) ->
  versions_distinct graph_id (s ++ [g]).
Proof.
  unfold versions_distinct. intros Hnd Hnew. rewrite versions_of_app.
  destruct (graph_db.same_graph graph_id g); [| now rewrite app_nil_r].
  rewrite map_app. cbn [map].
  apply NoDup_app; [exact Hnd | repeat constructor; easy |].
  intros x Hx [<- | []]. now apply Hnew.
Qed.

Lemma at_most_one_active_app_inactive (s : Store) (g : Graph) :
  at_most_one_active graph_id s ->
  is_active g = false ->
  at_most_one_active graph_id (s ++ [g]).
Proof.
  unfold at_most_one_active, active_versions. intros H Hg.
  rewrite versions_of_app, filter_app.
  destruct (graph_db.same_graph graph_id g); cbn [filter];
    rewrite ?Hg, app_nil_r; exact H.
Qed.

End OneActiveVersion.

Section OperationsPreserve.

Variable env : Env.
Variable graph_id : string.

Lemma update_graph_preserves (graph : Graph) (w w' : World) (r : Graph) :
  versions_distinct graph_id (store w) ->
  at_most_one_active graph_id (store w) ->
  update_graph env graph_id graph w = (Ok r, w') ->
  versions_distinct graph_id (store w')
  /\ at_most_one_active graph_id (store w').
Proof.
  intros Hnd Hone H. destruct w as [s l]. cbn [store] in *.
  unfold update_graph in H.
  destruct (truthy (id graph) && negb (id graph =? graph_id)%string);
    [discriminate |].
  run_handler_in H.
  destruct (graph_db.versions_of graph_id s) as [|g0 rest] eqn:Ev;
    [discriminate |].
  assert (forall B, version B = max_version g0 rest + 1 ->
                    versions_distinct graph_id (s ++ [B])) as Hd.
  { intros B HB. apply versions_distinct_app; [exact Hnd |].
    intros _. rewrite Ev, HB. apply next_version_is_unused. }
  case_split H; try discriminate; injection H as <- <-; cbn [store].
  - apply set_active_establishes, Hd. reflexivity.
  - apply set_active_establishes, Hd. reflexivity.
  - split; [now apply Hd |].
    now apply at_most_one_active_app_inactive.
Qed.

Lemma set_graph_active_version_preserves (v : Z) (w w' : World) :
  versions_distinct graph_id (store w) ->
  set_graph_active_version env graph_id v w = (Ok tt, w') ->
  versions_distinct graph_id (store w')
  /\ at_most_one_active graph_id (store w').
Proof.
  intros Hnd H. destruct w as [s l]. cbn [store] in *.
  unfold set_graph_active_version in H. run_handler_in H.
  case_split H; try discriminate;
    first [injection H as <- | injection H as _ <-]; cbn [store];
    now apply set_active_establishes.
Qed.

Lemma do_create_graph_preserves (req : CreateGraph) (t : bool)
    (w w' : World) (r : Graph) :
  graph_db.versions_of graph_id (store w) = [] ->
  do_create_graph env graph_id req t w = (Ok r, w') ->
  versions_distinct graph_id (store w')
  /\ at_most_one_active graph_id (store w').
Proof.
  intros Hfresh H. destruct w as [s l]. cbn [store] in *.
  unfold do_create_graph in H. run_handler_in H.
  case_split H; try discriminate; injection H as <- <-; cbn [store];
    unfold versions_distinct, at_most_one_active, active_versions;
    rewrite versions_of_app, Hfresh; unfold graph_db.same_graph;
    cbn [id]; rewrite String.eqb_refl; cbn [app map filter];
    (split; [repeat constructor; easy |]);
    match goal with
    | |- context [if ?b then _ else _] => destruct b; cbn; lia
    end.
Qed.

Lemma run_op_preserves (op : Op) (w w' : World) :
  versions_distinct graph_id (store w) ->
  at_most_one_active graph_id (store w) ->
  op_graph_id op = graph_id ->
  draws_unused_id op (store w) = true ->
  run_op env op w = (Ok tt, w') ->
  versions_distinct graph_id (store w')
  /\ at_most_one_active graph_id (store w').
Proof.
  intros Hnd Hone Hop Hfresh H.
  destruct op as [uuid req t | gid graph | gid v];
    cbn [op_graph_id] in Hop; subst; cbn [run_op draws_unused_id] in *.
  - unfold bind in H.
    destruct (do_create_graph env graph_id req t w) as [[r | e] w1] eqn:E;
      [| discriminate].
    injection H as <-.
    destruct (graph_db.versions_of graph_id (store w)) eqn:Ev;
      [| discriminate].
    exact (do_create_graph_preserves _ _ _ _ _ Ev E).
  - unfold bind in H.
    destruct (update_graph env graph_id graph w) as [[r | e] w1] eqn:E;
      [| discriminate].
    injection H as <-.
    exact (update_graph_preserves _ _ _ _ Hnd Hone E).
  - exact (set_graph_active_version_preserves _ _ _ Hnd H).
Qed.

Lemma run_ops_preserves (ops : list Op) (w w' : World) :
  versions_distinct graph_id (store w) ->
  at_most_one_active graph_id (store w) ->
  Forall (fun op => op_graph_id op = graph_id) ops ->
  run_ops env ops w = Some w' ->
  versions_distinct graph_id (store w')
  /\ at_most_one_active graph_id (store w').
Proof.
  revert w. induction ops as [|op ops IH]; intros w Hnd Hone Hall H.
  - injection H as <-. now split.
  - apply Forall_cons_iff in Hall as [Hop Hall]. cbn [run_ops] in H.
    destruct (draws_unused_id op (store w)) eqn:Hfresh; [| discriminate].
    destruct (run_op env op w) as [[[] | e] w1] eqn:E; [| discriminate].
    destruct (run_op_preserves _ _ _ Hnd Hone Hop Hfresh E) as [Hnd1 Hone1].
    exact (IH w1 Hnd1 Hone1 Hall H).
Qed.

Lemma run_ops_app (ops1 ops2 : list Op) (w : World) :
  run_ops env (ops1 ++ ops2) w
  = match run_ops env ops1 w with
    | Some w1 => run_ops env ops2 w1
    | None => None
    end.
Proof.
  revert w. induction ops1 as [|op ops1 IH]; intros w; [reflexivity |].
  cbn [app run_ops]. destruct (draws_unused_id op (store w)); [| reflexivity].
  destruct (run_op env op w) as [[[] | e] w1]; [apply IH | reflexivity].
Qed.

(** C1: take a store in which the versions of [graph_id] are distinct and
    at most one of them is active (for instance one that does not know
    [graph_id] yet), and any sequence of creations, updates and
    set-active-version calls on [graph_id] that all complete successfully,
    a creation drawing an identifier that is not in use.  Then the state
    between any two of the operations, and after the last, has at most one
    active version of [graph_id]. *)
Theorem at_most_one_active_between_operations (ops1 ops2 : list Op)
    (w w2 : World) :
  versions_distinct graph_id (store w) ->
  at_most_one_active graph_id (store w) ->
  Forall (fun op => op_graph_id op = graph_id) (ops1 ++ ops2) ->
  run_ops env (ops1 ++ ops2) w = Some w2 ->
  exists w1,
    run_ops env ops1 w = Some w1
    /\ run_ops env ops2 w1 = Some w2
    /\ at_most_one_active graph_id (store w1)
    /\ at_most_one_active graph_id (store w2).
Proof.
  intros Hnd Hone Hall H. rewrite run_ops_app in H.
  destruct (run_ops env ops1 w) as [w1 |] eqn:E1; [| discriminate].
  apply Forall_app in Hall as [Hall1 Hall2].
  destruct (run_ops_preserves _ _ _ Hnd Hone Hall1 E1) as [Hnd1 Hone1].
  destruct (run_ops_preserves _ _ _ Hnd1 Hone1 Hall2 H) as [_ Hone2].
  exists w1. now repeat split.
Qed.

End OperationsPreserve.

(** ** The theorems at work on the fixtures *)

Lemma at_most_one_active_between_operations_witness :
  exists w1,
    run_ops env_ok demo_ops1 w_empty = Some w1
    /\ run_ops env_ok demo_ops2 w1 = Some demo_final
    /\ at_most_one_active "g1" (store w1)
    /\ at_most_one_active "g1" (store demo_final).
Proof.
  apply (at_most_one_active_between_operations env_ok "g1"
           demo_ops1 demo_ops2 w_empty demo_final).
  - constructor.
  - unfold at_most_one_active. cbn. lia.
  - repeat constructor.
  - reflexivity.
Defined.

(** The scenario of the specification: [g1] has versions 1 (active) and 2;
    switching to 2 activates 2, then deactivates 1. *)
Lemma switch_activates_before_deactivating_witness :
  let w' := snd (run_switch env_ok "g1" (ViaSetActiveVersion 2) w_g1) in
  hook_events (new_events w_g1 w') = [EvActivate g1_v2; EvDeactivate g1_v1]
  /\ never_unregistered [version g1_v1] (new_events w_g1 w').
Proof.
  apply (switch_activates_before_deactivating env_ok "g1"
           (ViaSetActiveVersion 2) w_g1 _ g1_v1 g1_v2).
  - cbn. repeat split. lia.
  - reflexivity.
Defined.

Lemma set_active_version_activation_failure_witness :
  exists w',
    set_graph_active_version env_activation_fails "g1" 2 w_g1
    = (Raise (ActivationError "missing credentials"), w')
    /\ store w' = store w_g1
    /\ graph_db.lookup_graph "g1" None false (store w') = Some g1_v1
    /\ new_events w_g1 w'
       = [EvGetGraph "g1" (Some 2) false; EvGetGraph "g1" None false;
          EvActivate g1_v2]
    /\ deactivations_of g1_v1 (new_events w_g1 w') = 0%nat.
Proof.
  apply (set_active_version_activation_failure env_activation_fails "g1" 2
           w_g1 g1_v1 g1_v2 (ActivationError "missing credentials"));
    reflexivity.
Defined.

(** C3, refuted as stated: the compare-and-swap fails after a successful
    activation of version 2, [ConflictError] is surfaced, and the
    deactivation hook was not called once on version 2 but not at all. *)
Lemma conflict_does_not_undo_activation :
  let result := set_graph_active_version env_conflict "g1" 2 w_g1 in
  activate_hook env_conflict g1_v2 = Ok g1_v2
  /\ fst result = Raise ConflictError
  /\ deactivations_of g1_v2 (new_events w_g1 (snd result)) <> 1%nat.
Proof.
  cbn. repeat split; discriminate.
Qed.

Lemma set_active_version_conflict_propagates_witness :
  exists w',
    set_graph_active_version env_conflict "g1" 2 w_g1
    = (Raise ConflictError, w')
    /\ store w' = store w_g1
    /\ new_events w_g1 w'
       = [EvGetGraph "g1" (Some 2) false; EvGetGraph "g1" None false;
          EvActivate g1_v2; EvSetActiveVersion "g1" 2]
    /\ filter is_deactivation (new_events w_g1 w') = [].
Proof.
  apply (set_active_version_conflict_propagates env_conflict "g1" 2
           w_g1 g1_v2 g1_v2); reflexivity.
Defined.

(** C5, refuted as stated: version 1 of [g1] is the active one, and asking
    for it again succeeds but calls the activation hook and the store. *)
Lemma reactivation_calls_activation_hook :
  let result := set_graph_active_version env_ok "g1" 1 w_g1 in
  graph_db.lookup_graph "g1" None false (store w_g1) = Some g1_v1
  /\ fst result = Ok tt
  /\ new_events w_g1 (snd result)
     = [EvGetGraph "g1" (Some 1) false; EvGetGraph "g1" None false;
        EvActivate g1_v1; EvSetActiveVersion "g1" 1]
  /\ hook_events (new_events w_g1 (snd result)) <> [].
Proof.
  cbn. repeat split; discriminate.
Qed.

Lemma set_active_version_on_active_version_witness :
  exists B,
    graph_db.lookup_graph "g1" (Some 1) false (store w_g1) = Some B
    /\ set_graph_active_version env_ok "g1" 1 w_g1
       = match activate_hook env_ok B with
         | Raise e =>
             (Raise e,
              mkWorld (store w_g1)
                (log w_g1 ++ [EvGetGraph "g1" (Some 1) false;
                              EvGetGraph "g1" None false; EvActivate B]))
         | Ok _ =>
             if cas_conflict env_ok (store w_g1) "g1" 1 then
               (Raise ConflictError,
                mkWorld (store w_g1)
                  (log w_g1 ++ [EvGetGraph "g1" (Some 1) false;
                                EvGetGraph "g1" None false; EvActivate B;
                                EvSetActiveVersion "g1" 1]))
             else
               (Ok tt,
                mkWorld (map (graph_db.mark_active "g1" 1) (store w_g1))
                  (log w_g1 ++ [EvGetGraph "g1" (Some 1) false;
                                EvGetGraph "g1" None false; EvActivate B;
                                EvSetActiveVersion "g1" 1]))
         end.
Proof.
  apply (set_active_version_on_active_version env_ok "g1" 1 w_g1 g1_v1);
    reflexivity.
Defined.

Lemma update_graph_template_immutable_witness :
  exists detail w',
    update_graph env_ok "g1" (mkGraph "g1" 0 true false) w_g1
    = (Raise (HTTPException 400 detail), w')
    /\ store w' = store w_g1
    /\ forallb (fun ev => negb (is_store_write ev) && negb (is_hook_event ev))
         (new_events w_g1 w') = true.
Proof.
  apply (update_graph_template_immutable env_ok "g1"
           (mkGraph "g1" 0 true false) w_g1 g1_v2);
    [reflexivity | cbn; discriminate].
Defined.

(** C8, refuted as stated: [g1] has no versions, yet an update whose
    document names another graph is answered with status 400, not 404. *)
Lemma update_foreign_id_on_unknown_graph_is_400 :
  let result := update_graph env_ok "g1" (mkGraph "g2" 0 false false) w_empty in
  graph_db.versions_of "g1" (store w_empty) = []
  /\ fst result
     = Raise (HTTPException 400 "Graph ID does not match ID in URI")
  /\ forall e, fst result = Raise e -> is_not_found_error e = false.
Proof.
  cbn. repeat split. intros e H. injection H as <-. reflexivity.
Qed.

(** Versions [1,2,3] with 2 active: the update persists version 4. *)
Lemma update_graph_allocates_next_version_witness :
  id_mismatch "g1" (mkGraph "g1" 0 false false) = false
  /\ persisted
       (new_events w_g123
          (snd (update_graph env_ok "g1" (mkGraph "g1" 0 false false) w_g123)))
     = [mkGraph "g1" 4 false true].
Proof.
  split; [reflexivity |].
  pose proof (update_graph_allocates_next_version env_ok "g1"
                (mkGraph "g1" 0 false false) w_g123 eq_refl) as H.
  cbn [w_g123 store graph_db.versions_of next_version] in H.
  exact (proj2 (H _ _ eq_refl) _ eq_refl).
Defined.

(** C9, refuted as stated: the template_id does not resolve and the status
    is 400, the boundary's ValidationError, not 404. *)
Lemma unresolved_template_is_400 :
  let result :=
    do_create_graph env_ok "u1" (mkCreateGraph None (Some "t9") None) false
      w_g1 in
  graph_db.lookup_graph "t9" None true (store w_g1) = None
  /\ fst result = Raise (HTTPException 400 "Template #t9 not found")
  /\ forall e, fst result = Raise e ->
       is_not_found_error e = false /\ is_validation_error e = true.
Proof.
  cbn. repeat split; injection H as <-; reflexivity.
Qed.

Lemma do_create_graph_rejects_with_400_witness :
  do_create_graph env_ok "u1" (mkCreateGraph None (Some "t9") None) false w_g1
  = (Raise (HTTPException 400 "Template #t9 not found"),
     mkWorld (store w_g1) (log w_g1 ++ [EvGetGraph "t9" None true])).
Proof.
  apply (proj2 (do_create_graph_rejects_with_400 env_ok "u1"
                  (mkCreateGraph None (Some "t9") None) false w_g1 eq_refl)
           "t9" eq_refl); [discriminate | reflexivity].
Defined.

Lemma update_graph_rejects_foreign_id_witness :
  update_graph env_ok "g1" (mkGraph "g2" 0 false false) w_g1
  = (Raise (HTTPException 400 "Graph ID does not match ID in URI"), w_g1).
Proof.
  apply (update_graph_rejects_foreign_id env_ok "g1"
           (mkGraph "g2" 0 false false) w_g1); discriminate.
Defined.

(** ** [execute_graph_block] *)

Section BlockExecution.

Context {Data : Type}.

Lemma dict_get_append_same (name : string) (d : Data)
    (output : BlockOutput Data) :
  dict_get name (dict_append name d output)
  = Some (match dict_get name output with
          | Some ds => ds ++ [d]
          | None => [d]
          end).
Proof.
  induction output as [|[k ds] rest IH]; cbn [dict_append dict_get].
  - now rewrite String.eqb_refl.
  - destruct (k =? name)%string eqn:E; cbn [dict_get]; rewrite E;
      [reflexivity | exact IH].
Qed.

Lemma dict_get_append_other (name other : string) (d : Data)
    (output : BlockOutput Data) :
  other <> name ->
  dict_get name (dict_append other d output) = dict_get name output.
Proof.
  intros Hne. induction output as [|[k ds] rest IH];
    cbn [dict_append dict_get].
  - apply String.eqb_neq in Hne. now rewrite Hne.
  - destruct (k =? other)%string eqn:E; cbn [dict_get].
    + apply String.eqb_eq in E. subst k.
      apply String.eqb_neq in Hne. now rewrite Hne.
    + now rewrite IH.
Qed.

Lemma dict_append_keys (name : string) (d : Data)
    (output : BlockOutput Data) :
  map fst (dict_append name d output)
  = match dict_get name output with
    | Some _ => map fst output
    | None => map fst output ++ [name]
    end.
Proof.
  induction output as [|[k ds] rest IH]; cbn [dict_append dict_get map fst].
  - reflexivity.
  - destruct (k =? name)%string eqn:E; cbn [map fst]; [reflexivity |].
    rewrite IH. now destruct (dict_get name rest).
Qed.

Lemma dict_get_none_iff (name : string) (output : BlockOutput Data) :
  dict_get name output = None <-> ~ In name (map fst output).
Proof.
  induction output as [|[k ds] rest IH]; cbn [dict_get map fst In].
  - tauto.
  - destruct (k =? name)%string eqn:E.
    + apply String.eqb_eq in E. split; [discriminate | tauto].
    + apply String.eqb_neq in E. rewrite IH. tauto.
Qed.

Lemma dict_append_size (name : string) (d : Data)
    (output : BlockOutput Data) :
  length (concat (map snd (dict_append name d output)))
  = S (length (concat (map snd output))).
Proof.
  induction output as [|[k ds] rest IH]; cbn [dict_append map snd concat].
  - reflexivity.
  - destruct (k =? name)%string; cbn [map snd concat];
      rewrite !length_app; [cbn [length]; lia |].
    rewrite IH. lia.
Qed.

Lemma collect_from_get (name : string) (yields : list (string * Data))
    (output : BlockOutput Data) :
  dict_get name
    (fold_left (fun out nd => dict_append (fst nd) (snd nd) out) yields output)
  = match dict_get name output, yielded_under name yields with
    | Some ds, l => Some (ds ++ l)
    | None, [] => None
    | None, l => Some l
    end.
Proof.
  revert output. induction yields as [|[n d] ys IH]; intros output.
  - cbn. destruct (dict_get name output); [now rewrite app_nil_r | easy].
  - cbn [fold_left fst snd]. rewrite IH. unfold yielded_under.
    cbn [filter fst]. destruct (n =? name)%string eqn:E.
    + apply String.eqb_eq in E. subst n. rewrite dict_get_append_same.
      cbn [map snd]. destruct (dict_get name output);
        [now rewrite <- app_assoc | reflexivity].
    + apply String.eqb_neq in E. now rewrite dict_get_append_other.
Qed.

Lemma dict_get_some_in (name : string) (output : BlockOutput Data)
    (ds : list Data) :
  dict_get name output = Some ds -> In name (map fst output).
Proof.
  induction output as [|[k l] rest IH]; cbn [dict_get map fst In];
    [discriminate |].
  destruct (k =? name)%string eqn:E.
  - apply String.eqb_eq in E. now left.
  - intros H. right. now apply IH.
Qed.

Lemma dict_append_key_in (name n : string) (d : Data)
    (output : BlockOutput Data) :
  In name (map fst (dict_append n d output))
  <-> In name (map fst output) \/ n = name.
Proof.
  rewrite dict_append_keys. destruct (dict_get n output) eqn:E.
  - apply dict_get_some_in in E. split; [tauto |].
    intros [H | <-]; assumption.
  - rewrite in_app_iff. cbn [In]. tauto.
Qed.

Lemma dict_append_keys_distinct (n : string) (d : Data)
    (output : BlockOutput Data) :
  NoDup (map fst output) -> NoDup (map fst (dict_append n d output)).
Proof.
  intros H. rewrite dict_append_keys.
  destruct (dict_get n output) eqn:E; [exact H |].
  apply dict_get_none_iff in E.
  apply NoDup_app; [exact H | repeat constructor; easy |].
  intros x Hx [<- | []]. contradiction.
Qed.

Lemma collect_from_keys (yields : list (string * Data))
    (output : BlockOutput Data) :
  let result :=
    fold_left (fun out nd => dict_append (fst nd) (snd nd) out) yields output
  in
  (NoDup (map fst output) -> NoDup (map fst result))
  /\ (forall name,
        In name (map fst result)
        <-> In name (map fst output) \/ In name (map fst yields))
  /\ length (concat (map snd result))
     = (length (concat (map snd output)) + length yields)%nat.
Proof.
  revert output. induction yields as [|[n d] ys IH]; intros output;
    cbn [fold_left fst snd map length In].
  - repeat split; try tauto; try lia.
  - destruct (IH (dict_append n d output)) as (Hnd & Hin & Hlen).
    split; [| split].
    + intros H. now apply Hnd, dict_append_keys_distinct.
    + intros name. rewrite Hin, dict_append_key_in. tauto.
    + rewrite Hlen, dict_append_size. lia.
Qed.

(** [execute_graph_block] on an unregistered block id answers 404 with the
    block id in the detail, whatever the input. *)
Theorem execute_graph_block_unknown_block
    (get_block : string -> option (Block Data)) (block_id : string)
    (data : Data) :
  get_block block_id = None ->
  execute_graph_block get_block block_id data
  = Raise (HTTPException 404 ("Block #" ++ block_id ++ " not found.")).
Proof.
  intros H. unfold execute_graph_block. now rewrite H.
Qed.

(** X1: When the block runs to its end, the response maps every name to the
    data yielded under that name, in the order of the yields; a name that
    was never yielded is not a key of the response. *)
Theorem execute_graph_block_groups_by_name
    (get_block : string -> option (Block Data)) (block_id : string)
    (data : Data) (obj : Block Data) (yields : list (string * Data)) :
  get_block block_id = Some obj ->
  block_execute obj data = (yields, None) ->
  exists output,
    execute_graph_block get_block block_id data = Ok output
    /\ forall name,
         dict_get name output
         = match yielded_under name yields with
           | [] => None
           | l => Some l
           end.
Proof.
  intros Hb He. unfold execute_graph_block. rewrite Hb, He.
  eexists. split; [reflexivity |]. intros name.
  unfold collect_outputs. rewrite collect_from_get. reflexivity.
Qed.

(** X2: When the block runs to its end, the keys of the response are pairwise
    distinct, they are exactly the names that were yielded, and the lists
    of the response hold as many items as the block yielded: nothing is
    dropped and nothing is duplicated. *)
Theorem execute_graph_block_keeps_every_yield
    (get_block : string -> option (Block Data)) (block_id : string)
    (data : Data) (obj : Block Data) (yields : list (string * Data)) :
  get_block block_id = Some obj ->
  block_execute obj data = (yields, None) ->
  exists output,
    execute_graph_block get_block block_id data = Ok output
    /\ NoDup (map fst output)
    /\ (forall name, In name (map fst output) <-> In name (map fst yields))
    /\ length (concat (map snd output)) = length yields.
Proof.
  intros Hb He. unfold execute_graph_block. rewrite Hb, He.
  eexists. split; [reflexivity |].
  destruct (collect_from_keys yields []) as (Hnd & Hin & Hlen).
  unfold collect_outputs. repeat split.
  - apply Hnd. constructor.
  - intros H. apply Hin in H as [[] | H]. exact H.
  - intros H. apply Hin. now right.
  - exact Hlen.
Qed.

(** An exception raised by the block's generator leaves the handler as it
    is: the outputs collected up to that point are not returned. *)
Theorem execute_graph_block_propagates_failure
    (get_block : string -> option (Block Data)) (block_id : string)
    (data : Data) (obj : Block Data) (yields : list (string * Data))
    (e : Exn) :
  get_block block_id = Some obj ->
  block_execute obj data = (yields, Some e) ->
  execute_graph_block get_block block_id data = Raise e.
Proof.
  intros Hb He. unfold execute_graph_block. now rewrite Hb, He.
Qed.

End BlockExecution.

(** ** Reading back what the handlers wrote *)

Lemma same_graph_with_is_active (graph_id : string) (b : bool) (g : Graph) :
  graph_db.same_graph graph_id (with_is_active b g)
  = graph_db.same_graph graph_id g.
Proof. reflexivity. Qed.

(** After the store's set-active, the active version of the graph and the
    row read by the version number are both the requested row, now flagged
    active. *)
Lemma lookup_after_mark_active (graph_id : string) (v : Z) (s : Store)
    (key : option Z) :
  key = None \/ key = Some v ->
  graph_db.lookup_graph graph_id key false
    (map (graph_db.mark_active graph_id v) s)
  = option_map (with_is_active true)
      (graph_db.lookup_graph graph_id (Some v) false s).
Proof.
  intros Hkey. unfold graph_db.lookup_graph.
  induction s as [|g s IH].
  - now destruct Hkey as [-> | ->].
  - assert (graph_db.mark_active graph_id v g = with_is_active true g
            \/ (graph_db.same_graph graph_id g && (version g =? v)) = false)
      as Hmark.
    { unfold graph_db.mark_active.
      destruct (graph_db.same_graph graph_id g); [| now right].
      destruct (version g =? v); [now left | now right]. }
    assert (graph_db.same_graph graph_id (graph_db.mark_active graph_id v g)
            = graph_db.same_graph graph_id g) as Hsame.
    { unfold graph_db.mark_active.
      now destruct (graph_db.same_graph graph_id g) eqn:E. }
    assert (version (graph_db.mark_active graph_id v g) = version g) as Hver.
    { unfold graph_db.mark_active.
      now destruct (graph_db.same_graph graph_id g). }
    assert (graph_db.same_graph graph_id g = true ->
            is_active (graph_db.mark_active graph_id v g) = (version g =? v))
      as Hact.
    { unfold graph_db.mark_active. now intros ->. }
    destruct Hkey as [-> | ->]; cbn [map find] in *.
    + rewrite Hsame. rewrite andb_true_r in *.
      destruct (graph_db.same_graph graph_id g) eqn:E; cbn [andb].
      * rewrite (Hact eq_refl).
        destruct (version g =? v) eqn:Ev; [| exact IH].
        destruct Hmark as [-> | H]; [reflexivity | discriminate].
      * exact IH.
    + rewrite Hsame, Hver. rewrite !andb_true_r in *.
      destruct (graph_db.same_graph graph_id g) eqn:E; cbn [andb].
      * destruct (version g =? v) eqn:Ev; [| exact IH].
        destruct Hmark as [-> | H]; [reflexivity | discriminate].
      * exact IH.
Qed.

Section SwitchReadBack.

Variable env : Env.
Variable graph_id : string.

(** Whatever the outcome of [set_graph_active_version], the store is either
    as it was or the old store with the requested version marked as the
    only active one; the latter whenever the call succeeds. *)
Lemma set_graph_active_version_store (v : Z) (w w' : World)
    (r : Outcome unit) :
  set_graph_active_version env graph_id v w = (r, w') ->
  (store w' = store w /\ r <> Ok tt)
  \/ (store w' = map (graph_db.mark_active graph_id v) (store w)
      /\ exists B,
           graph_db.lookup_graph graph_id (Some v) false (store w) = Some B).
Proof.
  intros H. destruct w as [s l]. cbn [store].
  unfold set_graph_active_version in H. run_handler_in H.
  case_split H;
    first [injection H as <- <- | injection H as _ <-]; cbn [store];
    solve [left; split; [reflexivity | discriminate]
          | right; split; [reflexivity | eauto]].
Qed.

(** X6: After a successful [set_graph_active_version(graph_id, v)], the
    endpoint [get_graph] answers with version [v], flagged active, both
    when asked for the active version and when asked for [v]. *)
Theorem get_graph_after_set_active_version (v : Z) (w w' : World)
    (key : option Z) :
  set_graph_active_version env graph_id v w = (Ok tt, w') ->
  key = None \/ key = Some v ->
  exists B,
    graph_db.lookup_graph graph_id (Some v) false (store w) = Some B
    /\ get_graph graph_id key w'
       = (Ok (with_is_active true B),
          mkWorld (store w') (log w' ++ [EvGetGraph graph_id key false])).
Proof.
  intros H Hkey.
  destruct (set_graph_active_version_store _ _ _ _ H)
    as [[_ Hr] | [Hs [B HB]]]; [now contradiction Hr |].
  exists B. split; [exact HB |].
  destruct w as [s l], w' as [s' l']. cbn [store log] in *. subst s'.
  unfold get_graph. run_handler.
  rewrite (lookup_after_mark_active _ _ _ _ Hkey), HB. reflexivity.
Qed.

(** X3: A request for a version that is not stored is answered 404 after the
    single read; no hook is called and the store is not written. *)
Theorem set_active_version_unknown_version (v : Z) (w : World) :
  graph_db.lookup_graph graph_id (Some v) false (store w) = None ->
  set_graph_active_version env graph_id v w
  = (Raise (HTTPException 404
              ("Graph #" ++ graph_id ++ " v" ++ str_of_int v ++ " not found")),
     mkWorld (store w) (log w ++ [EvGetGraph graph_id (Some v) false])).
Proof.
  intros H. destruct w as [s l]. cbn [store log] in *.
  unfold set_graph_active_version. run_handler. now rewrite H.
Qed.

(** X4: When the deactivation hook of the previously active version fails, its
    error is what the caller gets, yet the switch is already committed:
    the requested version is the active one in the store. *)
Theorem set_active_version_deactivation_failure (v : Z) (w : World)
    (A B B' : Graph) (e : Exn) :
  graph_db.lookup_graph graph_id None false (store w) = Some A ->
  graph_db.lookup_graph graph_id (Some v) false (store w) = Some B ->
  version A <> v ->
  activate_hook env B = Ok B' ->
  cas_conflict env (store w) graph_id v = false ->
  deactivate_hook env A = Raise e ->
  exists w',
    set_graph_active_version env graph_id v w = (Raise e, w')
    /\ store w' = map (graph_db.mark_active graph_id v) (store w)
    /\ graph_db.lookup_graph graph_id None false (store w')
       = Some (with_is_active true B).
Proof.
  intros HA HB Hv Hact Hcas Hde. destruct w as [s l]. cbn [store] in *.
  unfold set_graph_active_version. run_handler.
  rewrite HB, HA, Hact, Hcas.
  assert ((version A =? v) = false) as -> by now apply Z.eqb_neq.
  cbn [negb]. run_handler. rewrite Hde.
  eexists. split; [reflexivity |]. cbn [store]. split; [reflexivity |].
  rewrite (lookup_after_mark_active _ _ _ None (or_introl eq_refl)), HB.
  reflexivity.
Qed.

(** X5: A switch on a graph that has no active version calls no deactivation
    hook, whatever its outcome. *)
Theorem switch_without_active_version (c : SwitchCall) (w w' : World)
    (r : Outcome unit) :
  match c with
  | ViaUpdate _ =>
      next_or_none is_active (graph_db.versions_of graph_id (store w))
  | ViaSetActiveVersion _ =>
      graph_db.lookup_graph graph_id None false (store w)
  end = None ->
  run_switch env graph_id c w = (r, w') ->
  filter is_deactivation (new_events w w') = [].
Proof.
  intros Hnone H. destruct w as [s l]. cbn [store] in Hnone.
  destruct c as [graph | v]; cbn [run_switch] in H.
  - unfold update_graph in H.
    destruct (truthy (id graph) && negb (id graph =? graph_id)%string).
    + run_handler_in H. injection H as <- <-. now tidy_log.
    + run_handler_in H. rewrite Hnone in H.
      case_split H; injection H as <- <-; now tidy_log.
  - unfold set_graph_active_version in H. run_handler_in H.
    destruct (graph_db.lookup_graph graph_id (Some v) false s);
      run_handler_in H; [rewrite Hnone in H |];
      case_split H; injection H as <- <-; now tidy_log.
Qed.

End SwitchReadBack.

(** ** Creation *)

Lemma find_app_last {A} (p : A -> bool) (l : list A) (x : A) :
  find p (l ++ [x])
  = match find p l with
    | Some y => Some y
    | None => if p x then Some x else None
    end.
Proof.
  induction l as [|a l IH]; cbn [app find]; [reflexivity |].
  now destruct (p a).
Qed.

Lemma find_none_of_unknown_graph (graph_id : string) (q : Graph -> bool)
    (s : Store) :
  graph_db.versions_of graph_id s = [] ->
  find (fun g => graph_db.same_graph graph_id g && q g) s = None.
Proof.
  unfold graph_db.versions_of.
  induction s as [|g s IH]; cbn [filter find]; [reflexivity |].
  destruct (graph_db.same_graph graph_id g); [discriminate | exact IH].
Qed.

Section Creation.

Variable env : Env.
Variable uuid : string.

(** What [do_create_graph] leaves in the store: nothing when it rejects the
    request, and otherwise exactly one new row of the drawn identifier,
    also when the activation hook then fails. *)
Lemma do_create_graph_store (req : CreateGraph) (t : bool) (w w' : World)
    (r : Outcome Graph) :
  do_create_graph env uuid req t w = (r, w') ->
  (store w' = store w /\ persisted (new_events w w') = []
   /\ forall g, r <> Ok g)
  \/ (exists v,
        store w' = store w ++ [mkGraph uuid v t (negb t)]
        /\ r = activate_hook env (mkGraph uuid v t (negb t))).
Proof.
  intros H. destruct w as [s l]. cbn [store].
  unfold do_create_graph in H. run_handler_in H.
  case_split H; injection H as <- <-; cbn [store]; tidy_log;
    solve [left; repeat split; discriminate
          | right; eexists; split; reflexivity
          | right; eexists; split; [reflexivity | congruence]].
Qed.

(** X7: A graph created through [create_new_graph] under an unused identifier
    is at once what [get_graph] answers for that identifier, and the only
    entry of [get_graph_all_versions]. *)
Theorem get_graph_after_create_new_graph (req : CreateGraph)
    (w w' : World) (r : Graph) :
  graph_db.versions_of uuid (store w) = [] ->
  create_new_graph env uuid req w = (Ok r, w') ->
  exists v,
    get_graph uuid None w'
    = (Ok (mkGraph uuid v false true),
       mkWorld (store w') (log w' ++ [EvGetGraph uuid None false]))
    /\ get_graph_all_versions uuid w'
       = (Ok [mkGraph uuid v false true],
          mkWorld (store w') (log w' ++ [EvGetAllVersions uuid])).
Proof.
  intros Hfresh H. unfold create_new_graph in H.
  destruct (do_create_graph_store _ _ _ _ _ H)
    as [(_ & _ & Hr) | (v & Hs & _)]; [now contradiction (Hr r) |].
  exists v. destruct w as [s l], w' as [s' l']. cbn [store log] in *. subst s'.
  unfold get_graph, get_graph_all_versions. run_handler.
  unfold graph_db.lookup_graph. rewrite find_app_last.
  rewrite (find_none_of_unknown_graph uuid is_active s Hfresh).
  rewrite versions_of_app, Hfresh.
  unfold graph_db.same_graph. cbn [id is_active negb app].
  rewrite String.eqb_refl. cbn [andb app]. split; reflexivity.
Qed.

(** X8: A template created through [create_new_template] under an unused
    identifier is stored inactive: [get_graph] without a version answers
    404 for it, while [get_graph_all_versions] lists it. *)
Theorem get_graph_after_create_new_template (req : CreateGraph)
    (w w' : World) (r : Graph) :
  graph_db.versions_of uuid (store w) = [] ->
  create_new_template env uuid req w = (Ok r, w') ->
  exists v,
    get_graph uuid None w'
    = (Raise (HTTPException 404 ("Graph #" ++ uuid ++ " not found.")),
       mkWorld (store w') (log w' ++ [EvGetGraph uuid None false]))
    /\ get_graph_all_versions uuid w'
       = (Ok [mkGraph uuid v true false],
          mkWorld (store w') (log w' ++ [EvGetAllVersions uuid])).
Proof.
  intros Hfresh H. unfold create_new_template in H.
  destruct (do_create_graph_store _ _ _ _ _ H)
    as [(_ & _ & Hr) | (v & Hs & _)]; [now contradiction (Hr r) |].
  exists v. destruct w as [s l], w' as [s' l']. cbn [store log] in *. subst s'.
  unfold get_graph, get_graph_all_versions. run_handler.
  unfold graph_db.lookup_graph. rewrite find_app_last.
  rewrite (find_none_of_unknown_graph uuid is_active s Hfresh).
  rewrite versions_of_app, Hfresh.
  unfold graph_db.same_graph. cbn [id is_active negb app].
  rewrite String.eqb_refl. cbn [andb app]. split; reflexivity.
Qed.

(** X9: [do_create_graph] does not undo the creation when the activation hook
    fails: with an inline definition, the hook's error is surfaced and the
    new row stays stored.  A template_id supplied next to the inline
    definition is not looked up. *)
Theorem do_create_graph_keeps_row_on_hook_failure (req : CreateGraph)
    (t : bool) (w : World) (g : Graph) (e : Exn) :
  cg_graph req = Some g ->
  activate_hook env (mkGraph uuid (version g) t (negb t)) = Raise e ->
  do_create_graph env uuid req t w
  = (Raise e,
     mkWorld (store w ++ [mkGraph uuid (version g) t (negb t)])
       (log w ++ [EvCreateGraph (mkGraph uuid (version g) t (negb t));
                  EvActivate (mkGraph uuid (version g) t (negb t))])).
Proof.
  intros Hg He. destruct w as [s l]. cbn [store log].
  unfold do_create_graph. rewrite Hg. run_handler. graph_fields.
  rewrite He. now tidy_log.
Qed.

End Creation.

(** X10: A template created by [create_new_template] can be instantiated by
    [create_new_graph] through its identifier: the template is resolved,
    and the new graph is stored under its own identifier as version 1,
    active and not a template, whatever the version of the template. *)
Theorem create_new_graph_from_new_template (env : Env)
    (template_uuid graph_uuid : string) (req : CreateGraph)
    (w w1 : World) (r1 r2 : Graph) :
  create_new_template env template_uuid req w = (Ok r1, w1) ->
  template_uuid <> EmptyString ->
  activate_hook env (mkGraph graph_uuid 1 false true) = Ok r2 ->
  create_new_graph env graph_uuid
    (mkCreateGraph None (Some template_uuid) None) w1
  = (Ok r2,
     mkWorld (store w1 ++ [mkGraph graph_uuid 1 false true])
       (log w1 ++ [EvGetGraph template_uuid None true;
                   EvCreateGraph (mkGraph graph_uuid 1 false true);
                   EvActivate (mkGraph graph_uuid 1 false true)])).
Proof.
  intros H Hne Hact. unfold create_new_template in H.
  destruct (do_create_graph_store _ _ _ _ _ _ _ H)
    as [(_ & _ & Hr) | (v & Hs & _)]; [now contradiction (Hr r1) |].
  assert (exists T, graph_db.lookup_graph template_uuid None true (store w1)
                    = Some T) as [T HT].
  { rewrite Hs. unfold graph_db.lookup_graph. rewrite find_app_last.
    destruct (find _ (store w)); [eauto |].
    unfold graph_db.same_graph. cbn [id is_template].
    rewrite String.eqb_refl. cbn [andb]. eauto. }
  destruct w1 as [s1 l1]. cbn [store log] in *.
  unfold create_new_graph, do_create_graph.
  cbn [cg_graph template_id template_version truthy_opt]. unfold truthy.
  apply String.eqb_neq in Hne. rewrite Hne. cbn [negb].
  run_handler. rewrite HT. run_handler. graph_fields. rewrite Hact.
  now tidy_log.
Qed.

(** ** What updates leave behind *)

Lemma row_key_mark_active (graph_id : string) (v : Z) (s : Store) :
  map row_key (map (graph_db.mark_active graph_id v) s) = map row_key s.
Proof.
  rewrite map_map. apply map_ext. intros g. unfold graph_db.mark_active.
  now destruct (graph_db.same_graph graph_id g).
Qed.

(** X11: No operation removes, renumbers or re-types a stored version: after a
    creation, an update or a set-active-version call, whatever its outcome,
    the stored rows are the former ones, up to their activation flags,
    followed by at most one new row. *)
Theorem run_op_appends_only (env : Env) (op : Op) (w w' : World)
    (r : Outcome unit) :
  run_op env op w = (r, w') ->
  exists added,
    map row_key (store w') = map row_key (store w) ++ map row_key added
    /\ added = persisted (new_events w w')
    /\ (length added <= 1)%nat.
Proof.
  intros H. destruct w as [s l]. cbn [store].
  destruct op as [uuid req t | graph_id graph | graph_id v]; cbn [run_op] in H.
  - unfold do_create_graph in H. run_handler_in H.
    case_split H; injection H as <- <-; cbn [store]; tidy_log;
      eexists; (split; [| split; [reflexivity |]]); cbn [persisted length];
      rewrite ?map_app, ?app_nil_r; try reflexivity; lia.
  - unfold update_graph in H.
    destruct (truthy (id graph) && negb (id graph =? graph_id)%string).
    + run_handler_in H. injection H as <- <-. cbn [store]. tidy_log.
      exists []. cbn. rewrite app_nil_r. repeat split; lia.
    + run_handler_in H.
      case_split H; injection H as <- <-; cbn [store]; tidy_log;
        eexists; (split; [| split; [reflexivity |]]); cbn [persisted length];
        rewrite ?row_key_mark_active, ?map_app, ?app_nil_r;
        try reflexivity; lia.
  - unfold set_graph_active_version in H. run_handler_in H.
    case_split H;
      first [injection H as <- <- | injection H as _ <-]; cbn [store];
      tidy_log; exists []; cbn [persisted length map];
      rewrite ?row_key_mark_active, ?app_nil_r; repeat split; lia.
Qed.

Section Updates.

Variable env : Env.
Variable graph_id : string.

(** What [update_graph] leaves in the store when it succeeds: the new row,
    and, unless the document is a template, the activation flags of
    [graph_id] set by the version number the activation hook returned. *)
Lemma update_graph_store (graph : Graph) (w w' : World) (r : Graph) (n : Z) :
  next_version (graph_db.versions_of graph_id (store w)) = Some n ->
  update_graph env graph_id graph w = (Ok r, w') ->
  let B := mkGraph (id graph) n (is_template graph)
             (negb (is_template graph)) in
  if is_template graph then store w' = store w ++ [B] /\ r = B
  else store w' = map (graph_db.mark_active graph_id (version r))
                    (store w ++ [B])
       /\ activate_hook env B = Ok r.
Proof.
  intros Hn H. destruct w as [s l]. cbn [store] in *.
  unfold update_graph in H.
  destruct (truthy (id graph) && negb (id graph =? graph_id)%string);
    [discriminate |].
  run_handler_in H.
  destruct (graph_db.versions_of graph_id s) as [|g0 rest];
    [discriminate |].
  cbn [next_version] in Hn. injection Hn as <-.
  case_split H; try discriminate; injection H as <- <-; cbn [store];
    destruct (is_template graph); cbn [negb] in *; try discriminate;
    split; congruence.
Qed.

(** X12: Updating with a template document calls no hook and issues no
    set-active, whatever the outcome: the only store write is the creation
    of the new row, which is inactive, and the rows already stored, and
    with them the active version, are left exactly as they were. *)
Theorem update_graph_template_calls_no_hook (graph : Graph) (w w' : World)
    (r : Outcome Graph) :
  is_template graph = true ->
  update_graph env graph_id graph w = (r, w') ->
  hook_events (new_events w w') = []
  /\ filter is_store_write (new_events w w')
     = map EvCreateGraph (persisted (new_events w w'))
  /\ store w' = store w ++ persisted (new_events w w')
  /\ forallb (fun g => negb (is_active g)) (persisted (new_events w w'))
     = true.
Proof.
  intros Ht H. destruct w as [s l]. cbn [store].
  unfold update_graph in H.
  destruct (truthy (id graph) && negb (id graph =? graph_id)%string).
  - run_handler_in H. injection H as <- <-. cbn [store]. tidy_log.
    cbn. now rewrite app_nil_r.
  - run_handler_in H. rewrite ?Ht in H.
    case_split H; rewrite ?Ht in *; cbn [negb] in *; try discriminate;
      injection H as <- <-; cbn [store]; tidy_log; cbn;
      rewrite ?Ht, ?app_nil_r; repeat split; reflexivity.
Qed.

End Updates.

Lemma find_none_when {A} (p : A -> bool) (l : list A) :
  (forall x, In x l -> p x = false) -> find p l = None.
Proof.
  induction l as [|a l IH]; intros H; [reflexivity |].
  cbn [find]. rewrite (H a (or_introl eq_refl)).
  apply IH. intros x Hx. apply H. now right.
Qed.

Lemma versions_below_next (existing : list Graph) (n : Z) (g : Graph) :
  next_version existing = Some n -> In g existing -> version g < n.
Proof.
  destruct existing as [|g0 rest]; [discriminate |].
  unfold next_version, max_version. intros Hn Hin. injection Hn as <-.
  destruct (max_version_upper (map version rest) (version g0)) as [H0 Hrest].
  destruct Hin as [<- | Hin]; [lia |].
  specialize (Hrest (version g) (in_map version _ _ Hin)). lia.
Qed.

Lemma next_version_app (existing : list Graph) (B : Graph) (n : Z) :
  next_version existing = Some n ->
  version B = n ->
  next_version (existing ++ [B]) = Some (n + 1).
Proof.
  destruct existing as [|g0 rest]; [discriminate |].
  cbn [app next_version]. unfold max_version. intros Hn HB.
  injection Hn as Hn. rewrite map_app, fold_left_app. cbn [map fold_left].
  f_equal. lia.
Qed.

Lemma next_version_map (f : Graph -> Graph) (existing : list Graph) :
  (forall g, version (f g) = version g) ->
  next_version (map f existing) = next_version existing.
Proof.
  intros Hf. destruct existing as [|g0 rest]; [reflexivity |].
  cbn [map next_version]. unfold max_version.
  rewrite Hf, map_map. f_equal. f_equal. f_equal. apply map_ext, Hf.
Qed.

Section UpdatesCompose.

Variable env : Env.
Variable graph_id : string.

(** X13: Version numbers advance by one: after a successful update whose
    document carries [graph_id], the version the next update would allocate
    is one more than the version this update allocated. *)
Theorem update_graph_next_version_advances (graph : Graph) (w w' : World)
    (r : Graph) (n : Z) :
  next_version (graph_db.versions_of graph_id (store w)) = Some n ->
  id graph = graph_id ->
  update_graph env graph_id graph w = (Ok r, w') ->
  next_version (graph_db.versions_of graph_id (store w')) = Some (n + 1).
Proof.
  intros Hn Hid H. pose proof (update_graph_store _ _ _ _ _ _ _ Hn H) as Hs.
  cbn zeta in Hs.
  assert (next_version
            (graph_db.versions_of graph_id
               (store w ++ [mkGraph (id graph) n (is_template graph)
                              (negb (is_template graph))]))
          = Some (n + 1)) as Happ.
  { rewrite versions_of_app. unfold graph_db.same_graph. cbn [id].
    rewrite Hid, String.eqb_refl. now apply next_version_app. }
  destruct (is_template graph); destruct Hs as [-> _]; [exact Happ |].
  rewrite versions_of_mark_active, next_version_map; [exact Happ | easy].
Qed.

(** X14: After a successful update with a non-template document that carries
    [graph_id], and an activation hook that kept the version number,
    [get_graph] answers with the new version, active. *)
Theorem get_graph_after_update (graph : Graph) (w w' : World) (r : Graph)
    (n : Z) :
  next_version (graph_db.versions_of graph_id (store w)) = Some n ->
  id graph = graph_id ->
  is_template graph = false ->
  update_graph env graph_id graph w = (Ok r, w') ->
  version r = n ->
  get_graph graph_id None w'
  = (Ok (mkGraph graph_id n false true),
     mkWorld (store w') (log w' ++ [EvGetGraph graph_id None false])).
Proof.
  intros Hn Hid Ht H Hr.
  pose proof (update_graph_store _ _ _ _ _ _ _ Hn H) as Hs.
  cbn zeta in Hs. rewrite Ht, Hid, Hr in Hs. cbn [negb] in Hs.
  destruct Hs as [Hs _].
  destruct w as [s l], w' as [s' l']. cbn [store log] in *. subst s'.
  unfold get_graph. run_handler.
  rewrite (lookup_after_mark_active _ _ _ None (or_introl eq_refl)).
  unfold graph_db.lookup_graph. rewrite find_app_last.
  rewrite find_none_when.
  - unfold graph_db.same_graph. cbn [id version].
    rewrite String.eqb_refl, Z.eqb_refl. reflexivity.
  - intros g Hg. destruct (graph_db.same_graph graph_id g) eqn:E;
      [| reflexivity].
    assert (In g (graph_db.versions_of graph_id s)) as Hin
      by (apply filter_In; now split).
    pose proof (versions_below_next _ _ _ Hn Hin).
    assert ((version g =? n) = false) as -> by (apply Z.eqb_neq; lia).
    reflexivity.
Qed.

End UpdatesCompose.

(** ** [get_graph_input_schema] *)

(** X15: [get_graph_input_schema] answers the empty schema, not an error, for a
    graph without an active version; the only error it lets out is its own
    404, which replaces whatever the schema computation raised. *)
Theorem get_graph_input_schema_outcomes {Item : Type}
    (get_input_schema : Graph -> Outcome (list Item)) (graph_id : string)
    (w w' : World) (r : Outcome (list Item)) :
  get_graph_input_schema get_input_schema graph_id w = (r, w') ->
  w' = mkWorld (store w) (log w ++ [EvGetGraph graph_id None false])
  /\ match graph_db.lookup_graph graph_id None false (store w) with
     | None => r = Ok []
     | Some g =>
         match get_input_schema g with
         | Ok items => r = Ok items
         | Raise _ =>
             r = Raise (HTTPException 404
                          ("Graph #" ++ graph_id ++ " not found."))
         end
     end.
Proof.
  intros H. destruct w as [s l]. cbn [store log].
  unfold get_graph_input_schema, try_except in H. run_handler_in H.
  destruct (graph_db.lookup_graph graph_id None false s) as [g |].
  - destruct (get_input_schema g); injection H as <- <-; now split.
  - injection H as <- <-. now split.
Qed.

(** ** The further theorems at work on the fixtures *)

Lemma execute_graph_block_groups_by_name_witness :
  exists output,
    execute_graph_block registry "echo" 5 = Ok output
    /\ forall name,
         dict_get name output
         = match yielded_under name [("out", 5); ("log", 0); ("out", 6)] with
           | [] => None
           | l => Some l
           end.
Proof.
  apply (execute_graph_block_groups_by_name registry "echo" 5 echo_block);
    reflexivity.
Defined.

Lemma execute_graph_block_keeps_every_yield_witness :
  exists output,
    execute_graph_block registry "echo" 5 = Ok output
    /\ NoDup (map fst output)
    /\ (forall name,
          In name (map fst output)
          <-> In name (map fst [("out", 5); ("log", 0); ("out", 6)]))
    /\ length (concat (map snd output)) = 3%nat.
Proof.
  apply (execute_graph_block_keeps_every_yield registry "echo" 5 echo_block);
    reflexivity.
Defined.

Lemma get_graph_after_set_active_version_witness :
  exists B,
    graph_db.lookup_graph "g1" (Some 2) false (store w_g1) = Some B
    /\ get_graph "g1" None
         (snd (set_graph_active_version env_ok "g1" 2 w_g1))
       = (Ok (with_is_active true B),
          mkWorld (store (snd (set_graph_active_version env_ok "g1" 2 w_g1)))
            (log (snd (set_graph_active_version env_ok "g1" 2 w_g1))
             ++ [EvGetGraph "g1" None false])).
Proof.
  apply (get_graph_after_set_active_version env_ok "g1" 2 w_g1 _ None);
    [reflexivity | now left].
Defined.

Lemma set_active_version_unknown_version_witness :
  set_graph_active_version env_ok "g1" 7 w_g1
  = (Raise (HTTPException 404 "Graph #g1 v7 not found"),
     mkWorld (store w_g1) [EvGetGraph "g1" (Some 7) false]).
Proof.
  apply (set_active_version_unknown_version env_ok "g1" 7 w_g1). reflexivity.
Defined.

Lemma set_active_version_deactivation_failure_witness :
  exists w',
    set_graph_active_version env_deactivation_fails "g1" 2 w_g1
    = (Raise (DeactivationError "webhook still registered"), w')
    /\ store w' = map (graph_db.mark_active "g1" 2) (store w_g1)
    /\ graph_db.lookup_graph "g1" None false (store w')
       = Some (with_is_active true g1_v2).
Proof.
  apply (set_active_version_deactivation_failure env_deactivation_fails
           "g1" 2 w_g1 g1_v1 g1_v2 g1_v2
           (DeactivationError "webhook still registered"));
    try reflexivity. cbn. lia.
Defined.

Lemma switch_without_active_version_witness :
  filter is_deactivation
    (new_events w_g1_idle
       (snd (run_switch env_ok "g1" (ViaSetActiveVersion 2) w_g1_idle)))
  = [].
Proof.
  apply (switch_without_active_version env_ok "g1" (ViaSetActiveVersion 2)
           w_g1_idle _ (Ok tt)); reflexivity.
Defined.

Lemma get_graph_after_create_new_graph_witness :
  let w' :=
    snd (create_new_graph env_ok "g2" (mkCreateGraph (Some draft) None None)
           w_g1) in
  exists v,
    get_graph "g2" None w'
    = (Ok (mkGraph "g2" v false true),
       mkWorld (store w') (log w' ++ [EvGetGraph "g2" None false]))
    /\ get_graph_all_versions "g2" w'
       = (Ok [mkGraph "g2" v false true],
          mkWorld (store w') (log w' ++ [EvGetAllVersions "g2"])).
Proof.
  apply (get_graph_after_create_new_graph env_ok "g2"
           (mkCreateGraph (Some draft) None None) w_g1 _
           (mkGraph "g2" 1 false true)); reflexivity.
Defined.

Lemma get_graph_after_create_new_template_witness :
  let w' :=
    snd (create_new_template env_ok "t2"
           (mkCreateGraph (Some draft) None None) w_g1) in
  exists v,
    get_graph "t2" None w'
    = (Raise (HTTPException 404 "Graph #t2 not found."),
       mkWorld (store w') (log w' ++ [EvGetGraph "t2" None false]))
    /\ get_graph_all_versions "t2" w'
       = (Ok [mkGraph "t2" v true false],
          mkWorld (store w') (log w' ++ [EvGetAllVersions "t2"])).
Proof.
  apply (get_graph_after_create_new_template env_ok "t2"
           (mkCreateGraph (Some draft) None None) w_g1 _
           (mkGraph "t2" 1 true false)); reflexivity.
Defined.

Lemma do_create_graph_keeps_row_on_hook_failure_witness :
  do_create_graph env_activation_fails "g2"
    (mkCreateGraph (Some draft) (Some "t1") None) false w_t1
  = (Raise (ActivationError "missing credentials"),
     mkWorld (store w_t1 ++ [mkGraph "g2" 1 false true])
       [EvCreateGraph (mkGraph "g2" 1 false true);
        EvActivate (mkGraph "g2" 1 false true)]).
Proof.
  apply (do_create_graph_keeps_row_on_hook_failure env_activation_fails "g2"
           (mkCreateGraph (Some draft) (Some "t1") None) false w_t1 draft);
    reflexivity.
Defined.

Lemma create_new_graph_from_new_template_witness :
  let w1 :=
    snd (create_new_template env_ok "t2"
           (mkCreateGraph (Some (mkGraph "draft" 5 false false)) None None)
           w_empty) in
  create_new_graph env_ok "g2" (mkCreateGraph None (Some "t2") None) w1
  = (Ok (mkGraph "g2" 1 false true),
     mkWorld (store w1 ++ [mkGraph "g2" 1 false true])
       (log w1 ++ [EvGetGraph "t2" None true;
                   EvCreateGraph (mkGraph "g2" 1 false true);
                   EvActivate (mkGraph "g2" 1 false true)])).
Proof.
  apply (create_new_graph_from_new_template env_ok "t2" "g2"
           (mkCreateGraph (Some (mkGraph "draft" 5 false false)) None None)
           w_empty _ (mkGraph "t2" 5 true false));
    [reflexivity | discriminate | reflexivity].
Defined.

Lemma run_op_appends_only_witness :
  let w' := snd (run_op env_ok (OpUpdate "g1" (mkGraph "g1" 0 false false))
                   w_g1) in
  exists added,
    map row_key (store w') = map row_key (store w_g1) ++ map row_key added
    /\ added = persisted (new_events w_g1 w')
    /\ (length added <= 1)%nat.
Proof.
  apply (run_op_appends_only env_ok (OpUpdate "g1" (mkGraph "g1" 0 false false))
           w_g1 _ (Ok tt)); reflexivity.
Defined.

Lemma update_graph_template_calls_no_hook_witness :
  let w' := snd (update_graph env_ok "t1" (mkGraph "t1" 0 true false) w_t1) in
  hook_events (new_events w_t1 w') = []
  /\ filter is_store_write (new_events w_t1 w')
     = map EvCreateGraph (persisted (new_events w_t1 w'))
  /\ store w' = store w_t1 ++ persisted (new_events w_t1 w')
  /\ forallb (fun g => negb (is_active g)) (persisted (new_events w_t1 w'))
     = true.
Proof.
  apply (update_graph_template_calls_no_hook env_ok "t1"
           (mkGraph "t1" 0 true false) w_t1 _
           (Ok (mkGraph "t1" 3 true false))); reflexivity.
Defined.

Lemma update_graph_next_version_advances_witness :
  next_version
    (graph_db.versions_of "g1"
       (store (snd (update_graph env_ok "g1" (mkGraph "g1" 0 false false)
                      w_g123))))
  = Some 5.
Proof.
  apply (update_graph_next_version_advances env_ok "g1"
           (mkGraph "g1" 0 false false) w_g123 _
           (mkGraph "g1" 4 false true) 4); reflexivity.
Defined.

Lemma get_graph_after_update_witness :
  let w' :=
    snd (update_graph env_ok "g1" (mkGraph "g1" 0 false false) w_g123) in
  get_graph "g1" None w'
  = (Ok (mkGraph "g1" 4 false true),
     mkWorld (store w') (log w' ++ [EvGetGraph "g1" None false])).
Proof.
  apply (get_graph_after_update env_ok "g1" (mkGraph "g1" 0 false false)
           w_g123 _ (mkGraph "g1" 4 false true) 4); reflexivity.
Defined.

Lemma get_graph_input_schema_outcomes_witness :
  snd (get_graph_input_schema (fun _ => @Raise (list Z) StopIteration)
         "g1" w_g1)
  = mkWorld (store w_g1) [EvGetGraph "g1" None false]
  /\ fst (get_graph_input_schema (fun _ => @Raise (list Z) StopIteration)
            "g1" w_g1)
     = Raise (HTTPException 404 "Graph #g1 not found.").
Proof.
  apply (get_graph_input_schema_outcomes
           (fun _ => @Raise (list Z) StopIteration) "g1" w_g1 _ _).
  reflexivity.
Defined.

(** ** Failing switches, on both paths *)

(** Inside [update_graph] the compare-and-swap is reached after the new
    version has been persisted and activated: [ConflictError] is surfaced,
    the deactivation hook is not called, and the new row stays behind. *)
Remark update_graph_conflict (env : Env) (graph_id : string)
    (graph : Graph) (w : World) (n : Z) (B' : Graph) :
  id_mismatch graph_id graph = false ->
  next_version (graph_db.versions_of graph_id (store w)) = Some n ->
  is_template graph = false ->
  (forall L, latest_version_graph (graph_db.versions_of graph_id (store w))
             = Some L -> is_template L = false) ->
  activate_hook env (mkGraph (id graph) n false true) = Ok B' ->
  cas_conflict env (store w ++ [mkGraph (id graph) n false true]) graph_id
    (version B') = true ->
  update_graph env graph_id graph w
  = (Raise ConflictError,
     mkWorld (store w ++ [mkGraph (id graph) n false true])
       (log w ++ [EvGetAllVersions graph_id;
                  EvCreateGraph (mkGraph (id graph) n false true);
                  EvActivate (mkGraph (id graph) n false true);
                  EvSetActiveVersion graph_id (version B')])).
Proof.
  intros Hid Hn Ht HL Hact Hcas. destruct w as [s l]. cbn [store log] in *.
  unfold update_graph. unfold id_mismatch in Hid. rewrite Hid.
  run_handler.
  destruct (graph_db.versions_of graph_id s) as [|g0 rest];
    [discriminate |].
  cbn [next_version] in Hn. injection Hn as Hn.
  destruct (latest_version_graph_found g0 rest) as (L & HLs & _ & _).
  specialize (HL L HLs). unfold latest_version_graph in HLs.
  rewrite HLs. graph_fields. rewrite HL, Ht, Hn. cbn [Bool.eqb negb].
  run_handler. graph_fields. rewrite Hact. run_handler. rewrite Hcas.
  now tidy_log.
Qed.

Section FailingSwitch.

Variable env : Env.
Variable graph_id : string.

(** C3 (as amended): in every switch, through [update_graph] or
    [set_graph_active_version], if the activation hook for the new version
    [B] succeeded and the store's compare-and-swap then fails with
    [ConflictError], the [ConflictError] is surfaced to the caller and no
    deactivation hook is called, neither on [B] nor on any other version:
    the one hook call of the operation is the activation of [B], which is
    not undone. *)
Theorem switch_conflict_propagates (c : SwitchCall) (w : World)
    (B B' : Graph) :
  reaches_activation graph_id c (store w) B ->
  activate_hook env B = Ok B' ->
  cas_conflict env (store_at_switch c (store w) B) graph_id
    (requested_version c B') = true ->
  exists w',
    run_switch env graph_id c w = (Raise ConflictError, w')
    /\ hook_events (new_events w w') = [EvActivate B]
    /\ filter is_deactivation (new_events w w') = []
    /\ deactivations_of B (new_events w w') = 0%nat.
Proof.
  destruct c as [graph | v];
    cbn [reaches_activation store_at_switch requested_version run_switch].
  - intros (Hid & Hn & HB & Ht & HL) Hact Hcas.
    rewrite HB in Hact, Hcas.
    pose proof (update_graph_conflict env graph_id graph w (version B) B'
                  Hid Hn Ht HL Hact Hcas) as H.
    rewrite <- HB in H. unfold bind. rewrite H.
    eexists. split; [reflexivity |]. destruct w as [s l]. cbn [store log].
    tidy_log. now repeat split.
  - intros HB Hact Hcas.
    destruct (set_active_version_conflict_propagates env graph_id v w B B'
                HB Hact Hcas) as (w' & H & _ & Hev & Hde).
    exists w'. split; [exact H |]. rewrite Hev. now repeat split.
Qed.


End FailingSwitch.


Lemma switch_conflict_propagates_witness :
  exists w',
    run_switch env_conflict "g1" (ViaUpdate (mkGraph "g1" 0 false false)) w_g1
    = (Raise ConflictError, w')
    /\ hook_events (new_events w_g1 w') = [EvActivate g1_v3_new]
    /\ filter is_deactivation (new_events w_g1 w') = []
    /\ deactivations_of g1_v3_new (new_events w_g1 w') = 0%nat.
Proof.
  apply (switch_conflict_propagates env_conflict "g1"
           (ViaUpdate (mkGraph "g1" 0 false false)) w_g1
           g1_v3_new g1_v3_new).
  - cbn. repeat split. intros L H. injection H as <-. reflexivity.
  - reflexivity.
  - reflexivity.
Defined.

